(** * The product page of the catalog demo: fetch hook, page and info panel

    A shallow embedding of

    - [src/hooks/useProduct.ts]               ([useProduct]),
    - [src/routes/products/$productId.tsx]    ([ProductPage]),
    - [src/components/ProductDetail],  [ProductNavigation], [ProductInfo],
    - [src/types/product.ts]                  ([Product]),

    together with the parts of the JavaScript language the code relies on
    (numeric conversion of strings, truthiness, [toFixed], optional
    chaining) and the contract of the data-fetching coordinator
    ([useQuery]) the hook is written against. *)

From Stdlib Require Import ZArith List String Ascii Lia Bool.
From Stdlib Require Import Floats.SpecFloat.
From stdpp Require Import gmap strings.

Local Open Scope Z_scope.

(** ** JavaScript numbers and the built-ins the source calls *)

Module JS.

(** A JavaScript number is an IEEE 754 binary64 value.  [spec_float]
    is the Standard Library's specification of such values (sign, integer
    mantissa, binary exponent); all arithmetic below is exact integer
    arithmetic followed by one correctly rounded conversion. *)
Definition number : Type := spec_float.

Definition prec : Z := 53.
Definition emax : Z := 1024.

Definition NaN : number := S754_nan.
Definition Infinity : number := S754_infinity false.

(** The binary64 value nearest to the rational [num / den]
    (round to nearest, ties to even), with the given sign. *)
Definition round_ratio (neg : bool) (num den : positive) : number :=
  let '(q, e, l) := SFdiv_core_binary prec emax (Zpos num) 0 (Zpos den) 0 in
  binary_round_aux prec emax neg q e l.

(** The exact value of a finite non-zero number, as a fraction. *)
Definition ratio_of (m : positive) (e : Z) : positive * positive :=
  match e with
  | Z0 => (m, 1%positive)
  | Zpos s => (Pos.shiftl m (Npos s), 1%positive)
  | Zneg s => (m, Pos.shiftl 1 (Npos s))
  end.

(** [ToBoolean] on numbers: [+0], [-0] and [NaN] are falsy. *)
Definition ToBoolean (x : number) : bool :=
  match x with
  | S754_zero _ | S754_nan => false
  | _ => true
  end.

(** [Number.isInteger]. *)
Definition isInteger (x : number) : bool :=
  match x with
  | S754_zero _ => true
  | S754_finite _ m e =>
      let '(n, d) := ratio_of m e in (Zpos n mod Zpos d =? 0)
  | _ => false
  end.

(** *** [Number(string)]: the StringToNumber conversion

    Strings are sequences of code units; the model covers the code
    units 0..255, one [ascii] each. *)

Definition code (c : ascii) : Z := Z.of_N (N_of_ascii c).

(** StrWhiteSpaceChar: TAB, LF, VT, FF, CR, SP and NBSP. *)
Definition isStrWhiteSpaceChar (c : ascii) : bool :=
  let n := code c in
  (n =? 9) || (n =? 10) || (n =? 11) || (n =? 12) || (n =? 13)
  || (n =? 32) || (n =? 160).

Fixpoint skipWhiteSpace (l : list ascii) : list ascii :=
  match l with
  | c :: l' => if isStrWhiteSpaceChar c then skipWhiteSpace l' else l
  | [] => []
  end.

Definition trimString (l : list ascii) : list ascii :=
  rev (skipWhiteSpace (rev (skipWhiteSpace l))).

Definition digit_value (base : Z) (c : ascii) : option Z :=
  let n := code c in
  let v :=
    if (48 <=? n) && (n <=? 57) then Some (n - 48)
    else if (97 <=? n) && (n <=? 102) then Some (n - 87)
    else if (65 <=? n) && (n <=? 70) then Some (n - 55)
    else None in
  match v with
  | Some d => if d <? base then Some d else None
  | None => None
  end.

(** Reads the longest run of digits: the value accumulated on top of
    [acc], the number of digits read, and the rest of the input. *)
Fixpoint read_digits (base : Z) (l : list ascii) (acc cnt : Z)
  : Z * Z * list ascii :=
  match l with
  | c :: l' =>
      match digit_value base c with
      | Some d => read_digits base l' (acc * base + d) (cnt + 1)
      | None => (acc, cnt, l)
      end
  | [] => (acc, cnt, [])
  end.

Definition is_char (c : ascii) (n : Z) : bool := code c =? n.

(** ExponentPart_opt at the end of a literal: the exponent, or [None]
    when the rest of the input is not an exponent part. *)
Definition read_exponent (l : list ascii) : option Z :=
  match l with
  | [] => Some 0
  | c :: r =>
      if is_char c 101 || is_char c 69 then
        let '(sgn, r') :=
          match r with
          | s :: r1 =>
              if is_char s 43 then (1, r1)
              else if is_char s 45 then (-1, r1)
              else (1, r)
          | [] => (1, r)
          end in
        let '(x, nx, rest) := read_digits 10 r' 0 0 in
        match rest with
        | [] => if nx =? 0 then None else Some (sgn * x)
        | _ => None
        end
      else None
  end.

(** StrUnsignedDecimalLiteral other than [Infinity]: the literal denotes
    [mantissa * 10 ^ exponent]. *)
Definition read_unsigned_decimal (l : list ascii) : option (Z * Z) :=
  let '(i, ni, r1) := read_digits 10 l 0 0 in
  let '(m, nf, r2) :=
    match r1 with
    | c :: r => if is_char c 46 then read_digits 10 r i 0 else (i, 0, r1)
    | [] => (i, 0, r1)
    end in
  if (ni =? 0) && (nf =? 0) then None
  else
    match read_exponent r2 with
    | Some x => Some (m, x - nf)
    | None => None
    end.

(** The number value of [mantissa * 10 ^ exp10], correctly rounded. *)
Definition of_decimal (neg : bool) (mantissa exp10 : Z) : number :=
  match mantissa with
  | Zpos m =>
      match exp10 with
      | Zneg k => round_ratio neg m (Pos.pow 10 k)
      | Z0 => round_ratio neg m 1
      | Zpos k => round_ratio neg (m * Pos.pow 10 k) 1
      end
  | _ => S754_zero neg
  end.

Definition infinity_literal : list ascii :=
  list_ascii_of_string "Infinity".

Definition read_signed_decimal (l : list ascii) : number :=
  let '(neg, body) :=
    match l with
    | c :: r =>
        if is_char c 43 then (false, r)
        else if is_char c 45 then (true, r)
        else (false, l)
    | [] => (false, l)
    end in
  if bool_decide (body = infinity_literal) then S754_infinity neg
  else
    match read_unsigned_decimal body with
    | Some (m, x) => of_decimal neg m x
    | None => NaN
    end.

(** NonDecimalIntegerLiteral: [0x], [0o] and [0b] prefixes (either
    case), followed by at least one digit of that base and nothing
    else; no sign. *)
Definition read_non_decimal (l : list ascii) : option number :=
  match l with
  | z :: p :: r =>
      if is_char z 48 then
        let base :=
          if is_char p 120 || is_char p 88 then Some 16
          else if is_char p 111 || is_char p 79 then Some 8
          else if is_char p 98 || is_char p 66 then Some 2
          else None in
        match base with
        | Some b =>
            let '(v, n, rest) := read_digits b r 0 0 in
            match rest with
            | [] => if n =? 0 then Some NaN else Some (of_decimal false v 0)
            | _ => Some NaN
            end
        | None => None
        end
      else None
  | _ => None
  end.

Definition StringToNumber (s : string) : number :=
  match trimString (list_ascii_of_string s) with
  | [] => S754_zero false
  | l =>
      match read_non_decimal l with
      | Some v => v
      | None => read_signed_decimal l
      end
  end.

(** [Number(value)] applied to a string. *)
Definition Number (s : string) : number := StringToNumber s.

(** *** Decimal strings of non-negative integers *)

Definition digit_char (d : Z) : ascii := ascii_of_N (Z.to_N (48 + d)).

Fixpoint decimal_digits (fuel : nat) (n : Z) : list ascii :=
  match fuel with
  | O => [digit_char n]
  | S f =>
      if n <? 10 then [digit_char n]
      else decimal_digits f (n / 10) ++ [digit_char (n mod 10)]
  end.

(** The digits of the decimal representation of [n], most significant
    first, without leading zeroes ([0] is the single digit 0). *)
Definition decimal (n : Z) : list ascii :=
  decimal_digits (Z.to_nat (Z.log2 n)) n.

Definition zeros (n : Z) : list ascii := repeat (digit_char 0) (Z.to_nat n).

(** *** [Number::toString] (radix 10) *)

(** [x * 10 ^ j] for the fraction [x = num / den]. *)
Definition scale10 (num den j : Z) : Z * Z :=
  if 0 <=? j then (num * 10 ^ j, den) else (num, den * 10 ^ (- j)).

(** For [x = num / den > 0], the [n] with [10 ^ (n - 1) <= x < 10 ^ n]. *)
Definition decimal_exponent (num den : Z) : Z :=
  let est := Z.of_nat (length (decimal num)) - Z.of_nat (length (decimal den)) in
  let '(a, b) := scale10 num den (- est) in
  if b <=? a then est + 1 else est.

(** Two numbers denote the same finite non-zero value. *)
Definition same_value (a b : number) : bool :=
  match a, b with
  | S754_finite sa ma ea, S754_finite sb mb eb =>
      let '(na, da) := ratio_of ma ea in
      let '(nb, db) := ratio_of mb eb in
      Bool.eqb sa sb && (Zpos na * Zpos db =? Zpos nb * Zpos da)
  | _, _ => false
  end.

(** The [k]-digit candidates [s] for which [s * 10 ^ (n - k)] converts
    back to [x]: the two integers around [x * 10 ^ (k - n)]; of two
    valid ones the closer, and the even one on a tie.  The result is
    the pair of [s] and its [n]. *)
Definition shortest_at (x : number) (num den n k : Z) : option (Z * Z) :=
  let '(a, b) := scale10 num den (k - n) in
  let lo := a / b in
  let hi := lo + 1 in
  let ok s := same_value (of_decimal false s (n - k)) x in
  let up := if hi =? 10 ^ k then (10 ^ (k - 1), n + 1) else (hi, n) in
  match ok lo, ok hi with
  | true, true =>
      match 2 * a ?= (2 * lo + 1) * b with
      | Lt => Some (lo, n)
      | Gt => Some up
      | Eq => if Z.even lo then Some (lo, n) else Some up
      end
  | true, false => Some (lo, n)
  | false, true => Some up
  | false, false => None
  end.

(** The least [k] with a valid candidate; seventeen significant digits
    identify every binary64 value. *)
Fixpoint shortest (fuel : nat) (x : number) (num den n k : Z) : Z * Z :=
  match fuel with
  | O => (fst (scale10 num den (k - n)) / snd (scale10 num den (k - n)), n)
  | S f =>
      match shortest_at x num den n k with
      | Some r => r
      | None => shortest f x num den n (k + 1)
      end
  end.

Definition exponent_suffix (e : Z) : list ascii :=
  list_ascii_of_string "e"
  ++ (if e <? 0 then list_ascii_of_string "-" else list_ascii_of_string "+")
  ++ decimal (Z.abs e).

(** The text of the positive value with digits [ds] (no leading or
    trailing zeroes beyond a single digit) and decimal exponent [n]. *)
Definition format_shortest (ds : list ascii) (n : Z) : list ascii :=
  let k := Z.of_nat (length ds) in
  if (k <=? n) && (n <=? 21) then ds ++ zeros (n - k)
  else if (0 <? n) && (n <=? 21) then
    take (Z.to_nat n) ds ++ list_ascii_of_string "." ++ drop (Z.to_nat n) ds
  else if (-6 <? n) && (n <=? 0) then
    list_ascii_of_string "0." ++ zeros (- n) ++ ds
  else
    match ds with
    | [d] => [d] ++ exponent_suffix (n - 1)
    | d :: rest => [d] ++ list_ascii_of_string "." ++ rest ++ exponent_suffix (n - 1)
    | [] => []
    end.

Definition toString_positive (m : positive) (e : Z) : list ascii :=
  let '(num, den) := ratio_of m e in
  let n := decimal_exponent (Zpos num) (Zpos den) in
  let '(s, n') := shortest 17 (S754_finite false m e) (Zpos num) (Zpos den) n 1 in
  format_shortest (decimal s) n'.

Definition toString_list (x : number) : list ascii :=
  match x with
  | S754_nan => list_ascii_of_string "NaN"
  | S754_zero _ => list_ascii_of_string "0"
  | S754_infinity false => list_ascii_of_string "Infinity"
  | S754_infinity true => list_ascii_of_string "-Infinity"
  | S754_finite neg m e =>
      (if neg then list_ascii_of_string "-" else []) ++ toString_positive m e
  end.

Definition toString (x : number) : string :=
  string_of_list_ascii (toString_list x).

(** *** [Number.prototype.toFixed] *)

(** The digits of the integer [n] with a decimal point before the last
    [f] of them, padded on the left with zeroes up to [f + 1] digits. *)
Definition fixed_digits (f : nat) (n : Z) : list ascii :=
  let m := decimal n in
  match f with
  | O => m
  | _ =>
      let m := if (length m <=? f)%nat then repeat (digit_char 0) (f + 1 - length m) ++ m else m in
      let k := length m in
      take (k - f) m ++ list_ascii_of_string "." ++ drop (k - f) m
  end.

(** [x.toFixed(f)] for [0 <= f <= 100]: non-finite values and values from
    [10 ^ 21] on are printed by [toString]; every other value is printed
    as the integer [n] nearest to [x * 10 ^ f] (the larger of two
    nearest ones), with [f] digits after the point. *)
Definition toFixed_list (f : nat) (x : number) : list ascii :=
  match x with
  | S754_finite neg m e =>
      let '(num, den) := ratio_of m e in
      let s := if neg then list_ascii_of_string "-" else [] in
      if 10 ^ 21 * Zpos den <=? Zpos num then s ++ toString_positive m e
      else
        let n := (2 * Zpos num * 10 ^ Z.of_nat f + Zpos den) / (2 * Zpos den) in
        s ++ fixed_digits f n
  | S754_zero _ => fixed_digits f 0
  | _ => toString_list x
  end.

Definition toFixed (f : nat) (x : number) : string :=
  string_of_list_ascii (toFixed_list f x).

(** *** [JSON.stringify] on strings and numbers *)

Definition hex_char (d : Z) : ascii :=
  if d <? 10 then digit_char d else ascii_of_N (Z.to_N (87 + d)).

Definition quote_char (c : ascii) : list ascii :=
  let n := code c in
  let bs := ascii_of_N 92 in
  if n =? 8 then [bs; ascii_of_N 98]
  else if n =? 9 then [bs; ascii_of_N 116]
  else if n =? 10 then [bs; ascii_of_N 110]
  else if n =? 12 then [bs; ascii_of_N 102]
  else if n =? 13 then [bs; ascii_of_N 114]
  else if n =? 34 then [bs; ascii_of_N 34]
  else if n =? 92 then [bs; bs]
  else if n <? 32 then
    [bs; ascii_of_N 117; digit_char 0; digit_char 0; hex_char (n / 16); hex_char (n mod 16)]
  else [c].

(** QuoteJSONString. *)
Definition QuoteJSONString (s : string) : list ascii :=
  [ascii_of_N 34] ++ flat_map quote_char (list_ascii_of_string s) ++ [ascii_of_N 34].

(** A finite number is serialised by [toString]; [NaN] and the
    infinities are serialised as [null]. *)
Definition stringify_number (x : number) : list ascii :=
  match x with
  | S754_nan | S754_infinity _ => list_ascii_of_string "null"
  | _ => toString_list x
  end.

(** *** Completions: evaluation that may throw *)

Inductive completion (A : Type) : Type :=
| Normal (a : A)
| Throw (name : string).
Arguments Normal {A} a.
Arguments Throw {A} name.

(** [o.f] on a possibly undefined receiver: a [TypeError] when the
    receiver is undefined. *)
Definition member {A B} (o : option A) (f : A -> B) : completion B :=
  match o with
  | Some a => Normal (f a)
  | None => Throw "TypeError"
  end.

(** [o?.chain]: an undefined receiver short-circuits the whole chain to
    [undefined]; otherwise the chain is evaluated on the receiver. *)
Definition optional {A B} (o : option A) (chain : A -> completion B)
  : completion (option B) :=
  match o with
  | Some a =>
      match chain a with
      | Normal b => Normal (Some b)
      | Throw n => Throw n
      end
  | None => Normal None
  end.

End JS.

(** ** Entity types ([src/types/product.ts]) *)

Module Types.

Record Product := {
  id : JS.number;
  title : string;
  description : string;
  category : string;
  price : JS.number;
  rating : JS.number;
  stock : JS.number;
  brand : option string;
  availabilityStatus : string;
  returnPolicy : string;
  thumbnail : string;
  images : list string;
}.

Record ProductsResponse := {
  products : list Product;
  total : JS.number;
  skip : JS.number;
  limit : JS.number;
}.

End Types.

(** A JavaScript [Error] value, as far as the page reads it. *)
Record Error := { message : string }.

(** ** The service capability ([productService])

    The HTTP client is outside the fetch layer.  Calling it issues a
    request; the promise it returns is settled later by the environment
    (see [Event]). *)
Module productService.

Inductive Request :=
| getProduct (id : JS.number).

End productService.

(** ** The data-fetching coordinator

    [useQuery] belongs to the package [@tanstack/react-query] (version 5
    according to the repository's migration guide), which is not part of
    the repository.  The definitions of this module state the contract
    the hook is written against: a cache of queries indexed by the hash
    of their key, one fetch in flight per query, the [enabled] option,
    retries, and the result fields the callers read. *)

Module Query.

Import productService.

Inductive KeyPart :=
| KString (s : string)
| KNumber (x : JS.number).

Definition QueryKey : Type := list KeyPart.

Fixpoint join (sep : list ascii) (l : list (list ascii)) : list ascii :=
  match l with
  | [] => []
  | [x] => x
  | x :: l' => x ++ sep ++ join sep l'
  end.

Definition hashPart (p : KeyPart) : list ascii :=
  match p with
  | KString s => JS.QuoteJSONString s
  | KNumber x => JS.stringify_number x
  end.

(** Modelled from the spec: the coordinator's [hashKey], which
    identifies the cache entry of a key ("cached under a key"): the JSON
    text of the key array. *)
Definition hashKey (k : QueryKey) : string :=
  string_of_list_ascii
    (list_ascii_of_string "[" ++ join (list_ascii_of_string ",") (map hashPart k)
     ++ list_ascii_of_string "]").

Inductive Status := status_pending | status_error | status_success.
Inductive FetchStatus := fetching | idle.

#[global] Instance Status_eq_dec : EqDecision Status.
Proof. solve_decision. Defined.

#[global] Instance FetchStatus_eq_dec : EqDecision FetchStatus.
Proof. solve_decision. Defined.

(** The options object passed to [useQuery]. *)
Record QueryOptions := {
  queryKey : QueryKey;
  queryFn : unit -> Request;
  enabled : bool;
}.

(** Modelled from the spec: the state of one cache entry ("Fetch
    Result": pending, error or success, with the data and the error it
    carries), the fetch in flight, the failures of the current fetch and
    the producer the fetch was started with. *)
Record QueryState := {
  state_data : option Types.Product;
  state_error : option Error;
  status : Status;
  fetchStatus : FetchStatus;
  fetchFailureCount : nat;
  state_queryFn : option (unit -> Request);
}.

(** The manual-mode result triple the callers destructure. *)
Record QueryResult := {
  data : option Types.Product;
  isLoading : bool;
  error : option Error;
}.

(** The router's current parameters and the coordinator's state:
    the [productId] segment of the current path, the query cache, the
    options of the mounted observer (all callers of the hook in one
    render read the same parameter, hence pass equal options), the
    requests issued so far (most recent first, each with the hash of the
    query it was issued for) and the configured number of retries. *)
Record World := {
  route : string;
  cache : gmap string QueryState;
  observer : option QueryOptions;
  calls : list (string * Request);
  retry : nat;
}.

Definition initialWorld (retries : nat) (productId : string) : World :=
  {| route := productId; cache := ∅; observer := None; calls := []; retry := retries |}.

Definition initialState : QueryState :=
  {| state_data := None; state_error := None; status := status_pending;
     fetchStatus := idle; fetchFailureCount := 0%nat; state_queryFn := None |}.

Definition is_idle (q : QueryState) : bool :=
  match fetchStatus q with idle => true | fetching => false end.

Definition has_data (q : QueryState) : bool :=
  match state_data q with Some _ => true | None => false end.

(** Modelled from the spec: the state of a query whose fetch starts:
    fetching with no failures; a query without data goes back to
    pending and drops its error, a query with data keeps both. *)
Definition fetchState (fn : unit -> Request) (q : QueryState) : QueryState :=
  {| state_data := state_data q;
     state_error := if has_data q then state_error q else None;
     status := if has_data q then status q else status_pending;
     fetchStatus := fetching;
     fetchFailureCount := 0%nat;
     state_queryFn := Some fn |}.

(** Modelled from the spec: the result derived from a cache entry;
    [isLoading] holds during the first fetch only (pending and
    fetching). *)
Definition resultOf (q : QueryState) : QueryResult :=
  {| data := state_data q;
     isLoading :=
       match status q, fetchStatus q with
       | status_pending, fetching => true
       | _, _ => false
       end;
     error := state_error q |}.

(** The mounted observer already watches the query [h] as an enabled
    observer. *)
Definition observes_enabled (w : World) (h : string) : bool :=
  match observer w with
  | Some o => bool_decide (hashKey (queryKey o) = h) && enabled o
  | None => false
  end.

(** Rendering is a computation over the world that may throw. *)
Definition M (A : Type) : Type := World -> JS.completion (A * World).

#[global] Instance M_ret : MRet M := fun A a w => JS.Normal (a, w).

#[global] Instance M_bind : MBind M := fun A B f m w =>
  match m w with
  | JS.Normal (a, w') => f a w'
  | JS.Throw n => JS.Throw n
  end.

Definition lift {A} (c : JS.completion A) : M A := fun w =>
  match c with
  | JS.Normal a => JS.Normal (a, w)
  | JS.Throw n => JS.Throw n
  end.

(** Modelled from the spec: [useQuery] in manual mode.  The observer
    attaches to the entry of the key's hash, creating it if absent.
    When it is enabled, the entry has no data, no fetch is in flight and
    the observer was not already watching this entry as enabled, a
    fetch starts: the producer is invoked.  The hook returns the result
    triple of the entry and never suspends or throws. *)
Definition useQuery (o : QueryOptions) : M QueryResult := fun w =>
  let h := hashKey (queryKey o) in
  let q := default initialState (cache w !! h) in
  let start :=
    enabled o && negb (has_data q) && is_idle q && negb (observes_enabled w h) in
  let q' := if start then fetchState (queryFn o) q else q in
  JS.Normal
    (resultOf q',
     {| route := route w;
        cache := <[h := q']> (cache w);
        observer := Some o;
        calls := if start then (h, queryFn o tt) :: calls w else calls w;
        retry := retry w |}).

End Query.

(** ** The router ([@tanstack/react-router]) *)

Module Router.

Record Params := { productId : string }.

(** [useParams({ from: '/products/$productId' })]. *)
Definition useParams : Query.M Params := fun w =>
  JS.Normal ({| productId := Query.route w |}, w).

End Router.

(** ** [src/hooks/useProduct.ts] *)

Import Query.

Definition useProduct : M QueryResult :=
  params ← Router.useParams;
  let id := JS.Number (Router.productId params) in
  useQuery
    {| queryKey := [KString "product"; KNumber id];
       queryFn := fun _ => productService.getProduct id;
       enabled := negb (negb (JS.ToBoolean id)) |}.

(** The options object the hook passes for an [id]. *)
Definition useProduct_options (id : JS.number) : QueryOptions :=
  {| queryKey := [KString "product"; KNumber id];
     queryFn := fun _ => productService.getProduct id;
     enabled := negb (negb (JS.ToBoolean id)) |}.

(** ** Rendered output *)

(** A rendered tree: text and elements.  A component whose source is
    outside [src/] appears as an element carrying the component's name. *)
#[warnings="-register-all"]
Inductive Node :=
| Text (s : string)
| Element (tag : string) (attrs : list (string * string)) (children : list Node).

Fixpoint textContent (n : Node) : string :=
  match n with
  | Text s => s
  | Element _ _ cs =>
      (fix go (l : list Node) : string :=
         match l with
         | [] => EmptyString
         | c :: l' => textContent c +:+ go l'
         end) cs
  end.

(** A JSX expression child [{e}] whose value is a string or undefined:
    undefined renders nothing. *)
Definition jsx_text (e : option string) : list Node :=
  match e with
  | Some s => [Text s]
  | None => []
  end.

(** An attribute whose value is a string or undefined. *)
Definition jsx_attr (name : string) (e : option string) : list (string * string) :=
  match e with
  | Some s => [(name, s)]
  | None => []
  end.

(** [className={styles.name}] of a CSS module. *)
Definition className (name : string) : list (string * string) :=
  [("className", name)].

(** ** [src/components/ProductNavigation/index.tsx] *)

Definition ProductNavigation : M Node :=
  mret (Element "Link" ([("to", "/")] ++ className "backLink")
          [Text "← Back to Products"]).

(** ** [src/components/ProductInfo/index.tsx] *)

Definition ProductInfo : M Node :=
  r ← useProduct;
  let product := data r in
  title ← lift (JS.optional product (fun p => JS.Normal (Types.title p)));
  price ← lift (JS.optional product
                  (fun p => JS.Normal (JS.toFixed 2 (Types.price p))));
  description ← lift (JS.optional product
                        (fun p => JS.Normal (Types.description p)));
  mret (Element "div" (className "info")
          [ Element "h1" (className "title") (jsx_text title);
            Element "p" (className "price") (Text "$" :: jsx_text price);
            Element "p" (className "description") (jsx_text description) ]).

(** ** [src/components/ProductImage] *)

(** Modelled from the spec: the source the image panel displays.  The
    panel is imported by [ProductDetail] but its source file is not
    under [src/].  "For all products with [images.length === 0], the
    image panel's displayed source equals [thumbnail]; otherwise it
    equals [images[0]]". *)
Definition displayedSource (p : Types.Product) : string :=
  match Types.images p with
  | [] => Types.thumbnail p
  | first :: _ => first
  end.

(** Modelled from the spec: the image panel ([ProductImage], not
    under [src/]).  It consumes the hook like its siblings; the tests
    find the image by the product's title as its alternative text.
    Under the manual convention the entity may be absent, in which case
    no attribute is set. *)
Definition ProductImage : M Node :=
  r ← useProduct;
  let product := data r in
  src ← lift (JS.optional product (fun p => JS.Normal (displayedSource p)));
  alt ← lift (JS.optional product (fun p => JS.Normal (Types.title p)));
  mret (Element "div" (className "imageSection")
          [ Element "img" (jsx_attr "src" src ++ jsx_attr "alt" alt) [] ]).

(** ** Components outside [src/] *)

(** Modelled from the spec: [ProductMeta] is not under [src/]; it
    consumes the hook (migration guide); its output is left opaque. *)
Definition ProductMeta : M Node :=
  _ ← useProduct; mret (Element "ProductMeta" [] []).

(** Modelled from the spec: [ProductActions] is not under [src/]; it
    consumes the hook (migration guide); its output is left opaque. *)
Definition ProductActions : M Node :=
  _ ← useProduct; mret (Element "ProductActions" [] []).

(** Modelled from the spec: [Header] is not under [src/]; its output
    is left opaque. *)
Definition Header : M Node := mret (Element "Header" [] []).

(** ** [src/components/ProductDetail/index.tsx] *)

Definition ProductDetail : M Node :=
  navigation ← ProductNavigation;
  image ← ProductImage;
  info ← ProductInfo;
  meta ← ProductMeta;
  actions ← ProductActions;
  mret (Element "div" (className "container")
          [ navigation;
            Element "div" (className "product")
              [ image;
                Element "div" (className "infoSection") [info; meta; actions] ] ]).

(** ** [src/routes/products/$productId.tsx] *)

Definition loadingIndicator : Node :=
  Element "p" [] [Text "Loading product..."].

Definition errorMessage (e : Error) : Node :=
  Element "p" [] [Text "Error loading product: "; Text (message e)].

(** The page: three independent conditionals, [isLoading && ...],
    [error && ...] and [product && <ProductDetail />]. *)
Definition ProductPage : M Node :=
  r ← useProduct;
  let product := data r in
  header ← Header;
  let loading := if isLoading r then [loadingIndicator] else [] in
  let failed :=
    match error r with
    | Some e => [errorMessage e]
    | None => []
    end in
  detail ← match product with
           | Some _ => d ← ProductDetail; mret [d]
           | None => mret []
           end;
  mret (Element "Layout" []
          [ Element "Layout.Header" [] [header];
            Element "Layout.Main" [] (loading ++ failed ++ detail) ]).

(** *** What the page shows *)

Definition mainChildren (page : Node) : list Node :=
  match page with
  | Element _ _ [_; Element _ _ cs] => cs
  | _ => []
  end.

Definition isLoadingIndicator (n : Node) : bool :=
  match n with
  | Element t [] [Text s] =>
      String.eqb t "p" && String.eqb s "Loading product..."
  | _ => false
  end.

Definition isErrorMessage (n : Node) : bool :=
  match n with
  | Element t [] [Text s; Text _] =>
      String.eqb t "p" && String.eqb s "Error loading product: "
  | _ => false
  end.

Definition isResolvedContent (n : Node) : bool :=
  match n with
  | Element t [(_, c)] _ => String.eqb t "div" && String.eqb c "container"
  | _ => false
  end.

Definition showsLoading (page : Node) : bool :=
  existsb isLoadingIndicator (mainChildren page).
Definition showsError (page : Node) : bool :=
  existsb isErrorMessage (mainChildren page).
Definition showsContent (page : Node) : bool :=
  existsb isResolvedContent (mainChildren page).

(** How many of the loading indicator, the error message and the
    resolved content the page shows. *)
Definition visibleCount (page : Node) : nat :=
  (if showsLoading page then 1 else 0)
  + (if showsError page then 1 else 0)
  + (if showsContent page then 1 else 0).

(** The text of the error paragraph, if the page shows one. *)
Definition errorText (page : Node) : option string :=
  textContent <$> List.find isErrorMessage (mainChildren page).

(** ** The environment: router, service and coordinator events *)

Inductive Event :=
| Navigate (productId : string)
| Resolve (hash : string) (p : Types.Product)
| Reject (hash : string) (e : Error)
| Refetch
| Collect (hash : string).

Definition withCache (w : World) (c : gmap string QueryState) : World :=
  {| route := route w; cache := c; observer := observer w;
     calls := calls w; retry := retry w |}.

(** A fetch succeeded: the entry holds the data and no error. *)
Definition resolved (p : Types.Product) (q : QueryState) : QueryState :=
  {| state_data := Some p; state_error := None; status := status_success;
     fetchStatus := idle; fetchFailureCount := 0%nat;
     state_queryFn := state_queryFn q |}.

(** An attempt failed and is retried: the entry stays as it is but for
    the failure count. *)
Definition failedAttempt (q : QueryState) : QueryState :=
  {| state_data := state_data q; state_error := state_error q;
     status := status q; fetchStatus := fetching;
     fetchFailureCount := S (fetchFailureCount q);
     state_queryFn := state_queryFn q |}.

(** The last attempt failed: the entry holds the error, unchanged, and
    keeps whatever data it had. *)
Definition rejected (e : Error) (q : QueryState) : QueryState :=
  {| state_data := state_data q; state_error := Some e;
     status := status_error; fetchStatus := idle;
     fetchFailureCount := S (fetchFailureCount q);
     state_queryFn := state_queryFn q |}.

(** Modelled from the spec: what the environment does to the world
    between two renders.

    - [Navigate]: the router's [productId] parameter changes.
    - [Resolve], [Reject]: the promise of the attempt in flight for a
      query settles; results are delivered to the entry of that query
      only.  A failure is retried (the producer is invoked again) until
      the configured number of retries is used up.
    - [Refetch]: the coordinator refetches the observed query in the
      background (window focus, reconnect, stale data on mount,
      invalidation); only an enabled observer is refetched.
    - [Collect]: an idle entry without observer is discarded. *)
Definition onEvent (ev : Event) (w : World) : World :=
  match ev with
  | Navigate s =>
      {| route := s; cache := cache w; observer := observer w;
         calls := calls w; retry := retry w |}
  | Resolve h p =>
      match cache w !! h with
      | Some q =>
          if is_idle q then w else withCache w (<[h := resolved p q]> (cache w))
      | None => w
      end
  | Reject h e =>
      match cache w !! h with
      | Some q =>
          if is_idle q then w
          else if (fetchFailureCount q <? retry w)%nat then
            {| route := route w;
               cache := <[h := failedAttempt q]> (cache w);
               observer := observer w;
               calls :=
                 match state_queryFn q with
                 | Some fn => (h, fn tt) :: calls w
                 | None => calls w
                 end;
               retry := retry w |}
          else withCache w (<[h := rejected e q]> (cache w))
      | None => w
      end
  | Refetch =>
      match observer w with
      | Some o =>
          let h := hashKey (queryKey o) in
          match cache w !! h with
          | Some q =>
              if enabled o && is_idle q then
                {| route := route w;
                   cache := <[h := fetchState (queryFn o) q]> (cache w);
                   observer := observer w;
                   calls := (h, queryFn o tt) :: calls w;
                   retry := retry w |}
              else w
          | None => w
          end
      | None => w
      end
  | Collect h =>
      match observer w, cache w !! h with
      | Some o, Some q =>
          if bool_decide (hashKey (queryKey o) = h) then w
          else if is_idle q then withCache w (delete h (cache w)) else w
      | None, Some q =>
          if is_idle q then withCache w (delete h (cache w)) else w
      | _, None => w
      end
  end.

(** The world after the page has rendered in it. *)
Definition render (w : World) : World :=
  match ProductPage w with
  | JS.Normal (_, w') => w'
  | JS.Throw _ => w
  end.

(** What the page shows in a world. *)
Definition view (w : World) : JS.completion Node :=
  match ProductPage w with
  | JS.Normal (page, _) => JS.Normal page
  | JS.Throw n => JS.Throw n
  end.

(** The result the hook returns in a world. *)
Definition hookResult (w : World) : JS.completion QueryResult :=
  match useProduct w with
  | JS.Normal (r, _) => JS.Normal r
  | JS.Throw n => JS.Throw n
  end.

(** Every event is followed by a render. *)
Definition step (w : World) (ev : Event) : World := render (onEvent ev w).

Definition run (evs : list Event) (w : World) : World := fold_left step evs w.

(** The route [/products/productId] is entered with an empty cache. *)
Definition enter (retries : nat) (productId : string) : World :=
  render (initialWorld retries productId).

(** ** Vocabulary of the statements *)

(** The value of an integer-valued number. *)
Definition integerValue (x : JS.number) : option Z :=
  match x with
  | S754_zero _ => Some 0
  | S754_finite neg m e =>
      let '(n, d) := JS.ratio_of m e in
      if Zpos n mod Zpos d =? 0
      then Some (if neg then - (Zpos n / Zpos d) else Zpos n / Zpos d)
      else None
  | _ => None
  end.

Definition isDecimalDigit (c : ascii) : bool :=
  (48 <=? JS.code c) && (JS.code c <=? 57).

(** The integer a sequence of decimal digits denotes. *)
Definition digitsValue (ds : list ascii) : Z :=
  fold_left (fun acc c => acc * 10 + (JS.code c - 48)) ds 0.

(** Finite and of magnitude below [10 ^ 21]: the range in which
    [toFixed] prints fixed-point notation. *)
Definition inFixedRange (x : JS.number) : bool :=
  match x with
  | S754_zero _ => true
  | S754_finite _ m e =>
      let '(n, d) := JS.ratio_of m e in Zpos n <? 10 ^ 21 * Zpos d
  | _ => false
  end.

(** The magnitude of a finite number as a fraction [(num, den)]. *)
Definition magnitude (x : JS.number) : Z * Z :=
  match x with
  | S754_finite _ m e => let '(n, d) := JS.ratio_of m e in (Zpos n, Zpos d)
  | _ => (0, 1)
  end.

Definition isNegative (x : JS.number) : bool :=
  match x with
  | S754_finite neg _ _ => neg
  | _ => false
  end.

(** [cents] is an integer nearest to a hundred times [num / den]. *)
Definition nearestHundredths (num den cents : Z) : Prop :=
  2 * Z.abs (100 * num - cents * den) <= den.

(** A number of hundredths written with exactly two decimal places:
    the integer part, a point, two digits. *)
Definition twoDecimalPlaces (negative : bool) (cents : Z) : string :=
  string_of_list_ascii
    ((if negative then list_ascii_of_string "-" else [])
     ++ JS.decimal (cents / 100) ++ list_ascii_of_string "."
     ++ [JS.digit_char (cents / 10 mod 10); JS.digit_char (cents mod 10)]).

Definition hasClass (name : string) (n : Node) : bool :=
  match n with
  | Element _ [(_, c)] _ => String.eqb c name
  | _ => false
  end.

(** The text of the panel's child with the given class name. *)
Definition slotText (name : string) (panel : Node) : option string :=
  match panel with
  | Element _ _ cs => textContent <$> List.find (hasClass name) cs
  | Text _ => None
  end.

Definition attribute (name : string) (attrs : list (string * string)) : option string :=
  snd <$> List.find (fun a => String.eqb (fst a) name) attrs.

(** The [src] attribute of the image panel's [img]. *)
Definition imageSource (panel : Node) : option string :=
  match panel with
  | Element _ _ [Element _ attrs _] => attribute "src" attrs
  | _ => None
  end.

Definition requestId (c : string * productService.Request) : JS.number :=
  match snd c with
  | productService.getProduct id => id
  end.

(** The hash of the key the hook uses for a [productId] segment. *)
Definition hashOf (productId : string) : string :=
  hashKey (queryKey (useProduct_options (JS.Number productId))).

#[global] Arguments hashKey : simpl never.
#[global] Arguments hashOf : simpl never.

(** The page is mounted on its route: the observer carries the options
    of the current parameter and the entry of its key exists. *)
Definition mounted (w : World) : Prop :=
  observer w = Some (useProduct_options (JS.Number (route w)))
  /\ is_Some (cache w !! hashOf (route w)).

Definition isNavigate (ev : Event) : bool :=
  match ev with
  | Navigate _ => true
  | _ => false
  end.



(** The producer a fetching entry was started with asks for a truthy
    id. *)
Definition truthyProducer (q : QueryState) : Prop :=
  match state_queryFn q with
  | Some fn => JS.ToBoolean (requestId (EmptyString, fn tt)) = true
  | None => True
  end.

(** The entry the hook attaches to in a world (a fresh one if the
    cache has none) and whether the hook call starts a fetch. *)
Definition entryOf (w : World) : QueryState :=
  default initialState (cache w !! hashOf (route w)).

Definition startsFetch (w : World) : bool :=
  enabled (useProduct_options (JS.Number (route w)))
  && negb (has_data (entryOf w)) && is_idle (entryOf w)
  && negb (observes_enabled w (hashOf (route w))).


(** Every request issued asks for a truthy id, and so does every
    producer stored in the cache. *)
Definition truthyCalls (w : World) : Prop :=
  Forall (fun c => JS.ToBoolean (requestId c) = true) (calls w)
  /\ forall h q, cache w !! h = Some q -> truthyProducer q.



(** ** The test component [ProductPageTest]

    The page tests (bundled with [src/hooks/useProduct.ts]) render a
    component that "mimics the ProductPage behavior": the same two
    paragraphs, and a [div] with the product's title in place of the
    detail view.  [product.title] is an unguarded access, evaluated only
    when [product &&] lets it. *)


(** ** Vocabulary of the further statements *)

Definition childrenOf (n : Node) : list Node :=
  match n with
  | Element _ _ cs => cs
  | Text _ => []
  end.



(** The parts of the detail view: the back link's target and text, the
    image panel and the info panel. *)
Definition backLink (detail : Node) : option (option string * string) :=
  match childrenOf detail with
  | Element t attrs cs :: _ =>
      if String.eqb t "Link"
      then Some (attribute "to" attrs, textContent (Element t attrs cs))
      else None
  | _ => None
  end.

Definition imagePanelOf (detail : Node) : option Node :=
  match childrenOf detail with
  | [_; Element _ _ (image :: _)] => Some image
  | _ => None
  end.

Definition infoPanelOf (detail : Node) : option Node :=
  match childrenOf detail with
  | [_; Element _ _ [_; Element _ _ (info :: _)]] => Some info
  | _ => None
  end.

Definition isWhiteSpaceOnly (l : list ascii) : bool :=
  forallb JS.isStrWhiteSpaceChar l.

(** The characters "-" and "0". *)
Definition minusSign : ascii := ascii_of_N 45.
Definition zeroDigit : ascii := ascii_of_N 48.

(** A request is recorded under the hash of the key that carries the
    very id it asks the service for. *)
Definition keyedRequest (c : string * productService.Request) : Prop :=
  c.1 = hashKey [KString "product"; KNumber (requestId c)].

(** A pending entry has neither data nor error. *)
Definition pendingClean (q : QueryState) : Prop :=
  status q = status_pending -> state_data q = None /\ state_error q = None.

(** Every request issued is keyed by its id, and so is every producer
    stored in the cache. *)
Definition keyedCalls (w : World) : Prop :=
  Forall keyedRequest (calls w)
  /\ forall h q fn,
       cache w !! h = Some q -> state_queryFn q = Some fn -> keyedRequest (h, fn tt).

(** ** Scenarios of the test suite *)

(** The mock product of the tests. *)
Definition mockProduct : Types.Product :=
  {| Types.id := JS.Number "1";
     Types.title := "Test Product";
     Types.description := "Test description";
     Types.category := "Electronics";
     Types.price := JS.Number "99.99";
     Types.rating := JS.Number "4.5";
     Types.stock := JS.Number "50";
     Types.brand := Some "Test Brand";
     Types.availabilityStatus := "In Stock";
     Types.returnPolicy := "30 days";
     Types.thumbnail := "https://example.com/thumbnail.jpg";
     Types.images := ["https://example.com/image.jpg"] |}.

Definition withPrice (x : JS.number) (p : Types.Product) : Types.Product :=
  {| Types.id := Types.id p;
     Types.title := Types.title p;
     Types.description := Types.description p;
     Types.category := Types.category p;
     Types.price := x;
     Types.rating := Types.rating p;
     Types.stock := Types.stock p;
     Types.brand := Types.brand p;
     Types.availabilityStatus := Types.availabilityStatus p;
     Types.returnPolicy := Types.returnPolicy p;
     Types.thumbnail := Types.thumbnail p;
     Types.images := Types.images p |}.

Definition failedToFetch : Error := {| message := "Failed to fetch product" |}.

(** Scenario A: [/products/1] is entered and the producer has not
    settled; retries are off, as in the tests. *)
Definition loadingWorld : World := enter 0 "1".

(** Scenario B: the producer rejects. *)
Definition failedWorld : World :=
  run [Reject (hashOf "1") failedToFetch] loadingWorld.

(** Scenario C: the producer resolves with the mock product. *)
Definition resolvedWorld : World :=
  run [Resolve (hashOf "1") mockProduct] loadingWorld.

(** The producer resolves with a product priced [1e21]. *)
Definition priceyWorld : World :=
  run [Resolve (hashOf "1") (withPrice (JS.Number "1e21") mockProduct)] loadingWorld.


(** * Properties *)

Lemma append_empty_r (s : string) : s +:+ EmptyString = s.
Proof.
  induction s as [| c s IH]; [reflexivity |].
  change (String c (s +:+ EmptyString) = String c s). by rewrite IH.
Qed.

(** ** The hook and the coordinator *)

Lemma useProduct_unfold (w : World) :
  useProduct w = useQuery (useProduct_options (JS.Number (route w))) w.
Proof. reflexivity. Qed.

(** [!!id] is the truthiness of [id]. *)
Lemma enabled_truthy (x : JS.number) :
  enabled (useProduct_options x) = JS.ToBoolean x.
Proof. cbn. by destruct (JS.ToBoolean x). Qed.

Lemma world_eta (w : World) :
  {| route := route w; cache := cache w; observer := observer w;
     calls := calls w; retry := retry w |} = w.
Proof. by destruct w. Qed.

(** An observer that is already attached finds its entry and leaves
    the world as it is. *)
Lemma useQuery_attached (o : QueryOptions) (w : World) (q : QueryState) :
  observer w = Some o ->
  cache w !! hashKey (queryKey o) = Some q ->
  useQuery o w = JS.Normal (resultOf q, w).
Proof.
  intros Hobs Hq. unfold useQuery, observes_enabled.
  rewrite Hq, Hobs. change (default initialState (Some q)) with q.
  rewrite bool_decide_eq_true_2 by reflexivity.
  assert (Hstart : enabled o && negb (has_data q) && is_idle q
                   && negb (true && enabled o) = false).
  { destruct (enabled o), (has_data q), (is_idle q); reflexivity. }
  rewrite Hstart, insert_id by exact Hq.
  rewrite <- Hobs. by rewrite world_eta.
Qed.

(** The world a hook call leaves is one in which the observer is
    attached. *)
Lemma useQuery_attaches (o : QueryOptions) (w : World) :
  exists q w',
    useQuery o w = JS.Normal (resultOf q, w')
    /\ observer w' = Some o
    /\ cache w' !! hashKey (queryKey o) = Some q
    /\ route w' = route w /\ retry w' = retry w.
Proof.
  unfold useQuery. eexists _, _. split; [reflexivity |].
  cbn. rewrite lookup_insert_eq. auto.
Qed.

Lemma useProduct_mounted (w : World) :
  mounted w ->
  exists q, cache w !! hashOf (route w) = Some q
            /\ useProduct w = JS.Normal (resultOf q, w).
Proof.
  intros [Hobs [q Hq]]. exists q. split; [exact Hq |].
  rewrite useProduct_unfold. by apply useQuery_attached.
Qed.

Lemma useProduct_mounts (w : World) :
  exists q w',
    useProduct w = JS.Normal (resultOf q, w')
    /\ mounted w' /\ cache w' !! hashOf (route w) = Some q
    /\ route w' = route w /\ retry w' = retry w.
Proof.
  rewrite useProduct_unfold.
  destruct (useQuery_attaches (useProduct_options (JS.Number (route w))) w)
    as (q & w' & Hu & Hobs & Hq & Hr & Hret).
  exists q, w'. unfold mounted, hashOf. rewrite Hr. eauto 10.
Qed.

(** ** What the components render *)

Lemma ProductInfo_render (w w' : World) (r : QueryResult) :
  useProduct w = JS.Normal (r, w') ->
  ProductInfo w =
    JS.Normal
      (Element "div" (className "info")
         [ Element "h1" (className "title") (jsx_text (Types.title <$> data r));
           Element "p" (className "price")
             (Text "$" :: jsx_text ((fun p => JS.toFixed 2 (Types.price p)) <$> data r));
           Element "p" (className "description")
             (jsx_text (Types.description <$> data r)) ],
       w').
Proof.
  intros Hu. unfold ProductInfo, mbind, M_bind. rewrite Hu.
  destruct (data r); reflexivity.
Qed.

Lemma ProductImage_render (w w' : World) (r : QueryResult) :
  useProduct w = JS.Normal (r, w') ->
  ProductImage w =
    JS.Normal
      (Element "div" (className "imageSection")
         [ Element "img"
             (jsx_attr "src" (displayedSource <$> data r)
              ++ jsx_attr "alt" (Types.title <$> data r)) [] ],
       w').
Proof.
  intros Hu. unfold ProductImage, mbind, M_bind. rewrite Hu.
  destruct (data r); reflexivity.
Qed.

(** In a mounted world the detail view renders without changing the
    world, and what it renders is the resolved content. *)
Lemma ProductDetail_mounted (w : World) :
  mounted w ->
  exists detail,
    ProductDetail w = JS.Normal (detail, w)
    /\ isResolvedContent detail = true
    /\ isLoadingIndicator detail = false
    /\ isErrorMessage detail = false.
Proof.
  intros Hm. destruct (useProduct_mounted w Hm) as (q & _ & Hu).
  unfold ProductDetail, ProductMeta, ProductActions, ProductNavigation,
    mbind, M_bind, mret, M_ret.
  rewrite (ProductImage_render w w _ Hu), (ProductInfo_render w w _ Hu), Hu.
  cbn beta iota. rewrite Hu.
  eexists. split; [reflexivity |]. auto.
Qed.

(** The page consults the hook once; the children it renders find the
    observer attached. *)
Lemma ProductPage_render (w : World) :
  exists r w' detail,
    useProduct w = JS.Normal (r, w')
    /\ mounted w'
    /\ ProductPage w =
         JS.Normal
           (Element "Layout" []
              [ Element "Layout.Header" [] [Element "Header" [] []];
                Element "Layout.Main" []
                  ((if isLoading r then [loadingIndicator] else [])
                   ++ match error r with
                      | Some e => [errorMessage e]
                      | None => []
                      end
                   ++ match data r with
                      | Some _ => [detail]
                      | None => []
                      end) ],
            w')
    /\ isResolvedContent detail = true
    /\ isLoadingIndicator detail = false
    /\ isErrorMessage detail = false.
Proof.
  destruct (useProduct_mounts w) as (q & w' & Hu & Hm & _).
  destruct (ProductDetail_mounted w' Hm) as (detail & Hd & Hc & Hl & He).
  exists (resultOf q), w', detail.
  split; [exact Hu |]. split; [exact Hm |]. split; [| auto].
  unfold ProductPage, mbind, M_bind. rewrite Hu.
  unfold Header, mret, M_ret.
  destruct (data (resultOf q)); [rewrite Hd |]; reflexivity.
Qed.

Lemma render_mounted (w : World) : mounted (render w).
Proof.
  destruct (ProductPage_render w) as (r & w' & d & _ & Hm & Hp & _).
  unfold render. by rewrite Hp.
Qed.

Lemma render_fix (w : World) : mounted w -> render w = w.
Proof.
  intros Hm. destruct (useProduct_mounted w Hm) as (q & _ & Hu).
  destruct (ProductPage_render w) as (r & w' & d & Hu' & _ & Hp & _).
  unfold render. rewrite Hp. congruence.
Qed.

Lemma render_useProduct (w : World) :
  exists r, useProduct w = JS.Normal (r, render w).
Proof.
  destruct (ProductPage_render w) as (r & w' & d & Hu & _ & Hp & _).
  exists r. unfold render. by rewrite Hp.
Qed.

(** The page shows the loading indicator exactly when [isLoading]
    holds, the error message exactly when [error] is set and the
    resolved content exactly when [data] is present. *)
Lemma view_shows (w : World) :
  exists page r w',
    useProduct w = JS.Normal (r, w')
    /\ view w = JS.Normal page
    /\ showsLoading page = isLoading r
    /\ showsError page = bool_decide (is_Some (error r))
    /\ showsContent page = bool_decide (is_Some (data r))
    /\ errorText page =
         (fun e => "Error loading product: " +:+ message e) <$> error r.
Proof.
  destruct (ProductPage_render w) as (r & w' & d & Hu & _ & Hp & Hc & Hl & He).
  eexists _, r, w'. split; [exact Hu |].
  unfold view. rewrite Hp. split; [reflexivity |].
  unfold showsLoading, showsError, showsContent, errorText, mainChildren.
  destruct (isLoading r), (error r) as [e |], (data r) as [p |];
    cbn [app existsb List.find]; rewrite ?Hc, ?Hl, ?He; cbn;
    rewrite ?Hc, ?Hl, ?He, ?append_empty_r; cbn; auto 10.
Qed.

(** ** Decimal digits and [toFixed] *)

Lemma log2_div10_lt (n : Z) : 10 <= n -> Z.log2 (n / 10) < Z.log2 n.
Proof.
  intros Hn.
  assert (H10 : 0 < n / 10) by (apply Z.div_str_pos; lia).
  apply Z.log2_lt_pow2; [exact H10 |].
  assert (Hlt : n < 2 ^ Z.succ (Z.log2 n)) by (apply Z.log2_spec; lia).
  rewrite Z.pow_succ_r in Hlt by apply Z.log2_nonneg.
  apply Z.div_lt_upper_bound; lia.
Qed.

(** The fuel does not matter once it covers the binary logarithm. *)
Lemma decimal_digits_fuel (f1 : nat) :
  forall (f2 : nat) (n : Z),
    0 <= n -> Z.log2 n <= Z.of_nat f1 -> Z.log2 n <= Z.of_nat f2 ->
    JS.decimal_digits f1 n = JS.decimal_digits f2 n.
Proof.
  induction f1 as [| f1 IH]; intros f2 n Hn H1 H2.
  - assert (Hsmall : n < 10).
    { destruct (Z.eq_dec n 0) as [-> | Hne]; [lia |].
      assert (n < 2 ^ Z.succ (Z.log2 n)) by (apply Z.log2_spec; lia).
      assert (Z.log2 n = 0) by (pose proof (Z.log2_nonneg n); lia).
      replace (Z.log2 n) with 0 in *. cbn in *. lia. }
    destruct f2; cbn [JS.decimal_digits]; [reflexivity |].
    by rewrite (proj2 (Z.ltb_lt n 10)).
  - cbn [JS.decimal_digits]. destruct (n <? 10) eqn:Hlt.
    + destruct f2; cbn [JS.decimal_digits]; [reflexivity | by rewrite Hlt].
    + apply Z.ltb_ge in Hlt. pose proof (log2_div10_lt n Hlt) as Hlog.
      pose proof (Z.log2_nonneg (n / 10)).
      destruct f2 as [| f2]; [lia |].
      cbn [JS.decimal_digits]. rewrite (proj2 (Z.ltb_ge n 10)) by exact Hlt.
      f_equal. apply IH; [apply Z.div_pos; lia | lia | lia].
Qed.

Lemma decimal_small (n : Z) : 0 <= n < 10 -> JS.decimal n = [JS.digit_char n].
Proof.
  intros Hn. unfold JS.decimal.
  destruct (Z.to_nat (Z.log2 n)); cbn [JS.decimal_digits]; [reflexivity |].
  by rewrite (proj2 (Z.ltb_lt n 10)) by lia.
Qed.

Lemma decimal_step (n : Z) :
  10 <= n ->
  JS.decimal n = JS.decimal (n / 10) ++ [JS.digit_char (n mod 10)].
Proof.
  intros Hn. unfold JS.decimal.
  pose proof (log2_div10_lt n Hn) as Hlog.
  pose proof (Z.log2_nonneg (n / 10)) as Hnn.
  destruct (Z.to_nat (Z.log2 n)) as [| f] eqn:Hf; [lia |].
  cbn [JS.decimal_digits]. rewrite (proj2 (Z.ltb_ge n 10)) by exact Hn.
  f_equal. apply decimal_digits_fuel; [apply Z.div_pos; lia | lia | lia].
Qed.

Lemma decimal_nonempty (n : Z) : (1 <= length (JS.decimal n))%nat.
Proof.
  unfold JS.decimal. destruct (Z.to_nat (Z.log2 n)) as [| f]; cbn [JS.decimal_digits].
  - cbn. lia.
  - destruct (n <? 10); [cbn; lia |]. rewrite length_app. cbn. lia.
Qed.

(** With two fraction digits, the digits of [n] fall into the integer
    part [n / 100] and the two digits of [n mod 100]. *)
Lemma fixed_digits_two (n : Z) :
  0 <= n ->
  JS.fixed_digits 2 n =
    JS.decimal (n / 100) ++ list_ascii_of_string "."
    ++ [JS.digit_char (n / 10 mod 10); JS.digit_char (n mod 10)].
Proof.
  intros Hn. unfold JS.fixed_digits.
  destruct (Z_lt_le_dec n 10) as [H10 | H10].
  - rewrite (decimal_small n) by lia.
    rewrite (Z.div_small n 100), (Z.div_small n 10), (Z.mod_small n 10) by lia.
    reflexivity.
  - rewrite (decimal_step n H10).
    assert (Hq : n / 10 / 10 = n / 100) by (rewrite Z.div_div by lia; reflexivity).
    destruct (Z_lt_le_dec n 100) as [H100 | H100].
    + rewrite (decimal_small (n / 10)) by
        (split; [apply Z.div_pos; lia | apply Z.div_lt_upper_bound; lia]).
      rewrite (Z.div_small n 100) by lia.
      rewrite (Z.mod_small (n / 10) 10) by
        (split; [apply Z.div_pos; lia | apply Z.div_lt_upper_bound; lia]).
      reflexivity.
    + assert (H10' : 10 <= n / 10) by (apply Z.div_le_lower_bound; lia).
      rewrite (decimal_step (n / 10) H10'), Hq.
      pose proof (decimal_nonempty (n / 100)) as Hlen.
      set (hi := JS.decimal (n / 100)) in *.
      rewrite <- app_assoc. cbn [app].
      assert (Hl : length (hi ++ [JS.digit_char (n / 10 mod 10); JS.digit_char (n mod 10)])
                   = (length hi + 2)%nat) by (rewrite length_app; reflexivity).
      rewrite Hl.
      destruct (length hi + 2 <=? 2)%nat eqn:Hle; [apply Nat.leb_le in Hle; lia |].
      rewrite Hl.
      replace (length hi + 2 - 2)%nat with (length hi) by lia.
      by rewrite take_app_length, drop_app_length.
Qed.

(** In the fixed-point range, [toFixed(2)] prints the nearest number
    of hundredths with exactly two decimal places. *)
Lemma toFixed_two_places (x : JS.number) :
  inFixedRange x = true ->
  exists cents,
    0 <= cents
    /\ nearestHundredths (magnitude x).1 (magnitude x).2 cents
    /\ JS.toFixed 2 x = twoDecimalPlaces (isNegative x) cents.
Proof.
  destruct x as [s | s | | neg m e]; cbn [inFixedRange]; try discriminate.
  - intros _. exists 0.
    split; [lia |]. split; [unfold nearestHundredths; cbn; lia | reflexivity].
  - unfold JS.toFixed, JS.toFixed_list, magnitude, twoDecimalPlaces, isNegative.
    destruct (JS.ratio_of m e) as [num den]. intros Hr.
    apply Z.ltb_lt in Hr.
    rewrite (proj2 (Z.leb_gt (10 ^ 21 * Z.pos den) (Z.pos num))) by exact Hr.
    set (cents := (2 * Z.pos num * 10 ^ Z.of_nat 2 + Z.pos den) / (2 * Z.pos den)).
    assert (Hpow : 10 ^ Z.of_nat 2 = 100) by reflexivity.
    assert (Hc0 : 0 <= cents) by (apply Z.div_pos; lia).
    exists cents. split; [exact Hc0 |]. split.
    + unfold nearestHundredths. cbn [fst snd].
      pose proof (Z.div_mod (2 * Z.pos num * 10 ^ Z.of_nat 2 + Z.pos den)
                    (2 * Z.pos den) ltac:(lia)) as Hdm.
      pose proof (Z.mod_pos_bound (2 * Z.pos num * 10 ^ Z.of_nat 2 + Z.pos den)
                    (2 * Z.pos den) ltac:(lia)) as Hmod.
      fold cents in Hdm. rewrite Hpow in Hdm, Hmod. lia.
    + by rewrite (fixed_digits_two cents Hc0).
Qed.

Lemma hookResult_inv (w : World) (r : QueryResult) :
  hookResult w = JS.Normal r -> exists w', useProduct w = JS.Normal (r, w').
Proof.
  unfold hookResult. destruct (useProduct w) as [[r' w'] | n]; [| discriminate].
  intros [= ->]. by exists w'.
Qed.

(** The hook itself never throws. *)
Lemma hookResult_total (w : World) : exists r, hookResult w = JS.Normal r.
Proof.
  destruct (useProduct_mounts w) as (q & w' & Hu & _).
  unfold hookResult. rewrite Hu. eauto.
Qed.

(** ** The info panel and the image panel *)

(** An unguarded access on an absent entity would throw; the guarded
    chain yields undefined instead. *)
Example member_of_undefined_throws :
  JS.member (None : option Types.Product) Types.title = JS.Throw "TypeError"
  /\ JS.optional (None : option Types.Product)
       (fun p => JS.Normal (Types.title p)) = JS.Normal None.
Proof. split; reflexivity. Qed.

(** C5 (amended): for every product [p] whose price is finite and of
    magnitude below [10 ^ 21], rendering the info panel with [p] shows
    [p.title], the string "$" followed by the price rounded to the
    nearest hundredth and written with exactly two decimal places, and
    [p.description] verbatim. *)
Theorem info_panel_shows_product
    (w : World) (r : QueryResult) (p : Types.Product) :
  hookResult w = JS.Normal r ->
  data r = Some p ->
  inFixedRange (Types.price p) = true ->
  exists panel w' cents,
    ProductInfo w = JS.Normal (panel, w')
    /\ slotText "title" panel = Some (Types.title p)
    /\ nearestHundredths (magnitude (Types.price p)).1
         (magnitude (Types.price p)).2 cents
    /\ slotText "price" panel
       = Some ("$" +:+ twoDecimalPlaces (isNegative (Types.price p)) cents)
    /\ slotText "description" panel = Some (Types.description p).
Proof.
  intros Hr Hp Hrange.
  destruct (hookResult_inv w r Hr) as [w' Hu].
  destruct (toFixed_two_places (Types.price p) Hrange) as (cents & _ & Hnear & Hfix).
  eexists _, w', cents. split; [exact (ProductInfo_render w w' r Hu) |].
  rewrite Hp. cbn [fmap option_fmap option_map jsx_text slotText className
                   List.find hasClass String.eqb Ascii.eqb Bool.eqb textContent].
  rewrite !append_empty_r, Hfix. auto.
Qed.

(** C9: when the hook's data is undefined the info panel evaluates
    without throwing and renders an empty title slot, an empty
    description slot and a price slot containing only "$". *)
Theorem info_panel_total_without_entity (w : World) (r : QueryResult) :
  hookResult w = JS.Normal r ->
  data r = None ->
  exists panel w',
    ProductInfo w = JS.Normal (panel, w')
    /\ slotText "title" panel = Some EmptyString
    /\ slotText "price" panel = Some "$"
    /\ slotText "description" panel = Some EmptyString.
Proof.
  intros Hr Hd. destruct (hookResult_inv w r Hr) as [w' Hu].
  eexists _, w'. split; [exact (ProductInfo_render w w' r Hu) |].
  rewrite Hd. cbn. auto.
Qed.

(** C7: for every resolved product [p], the image panel's displayed
    source is [p.thumbnail] when [p.images] is empty and [p.images[0]]
    otherwise. *)
Theorem image_panel_source (w : World) (r : QueryResult) (p : Types.Product) :
  hookResult w = JS.Normal r ->
  data r = Some p ->
  exists panel w',
    ProductImage w = JS.Normal (panel, w')
    /\ imageSource panel = Some (default (Types.thumbnail p) (head (Types.images p))).
Proof.
  intros Hr Hp. destruct (hookResult_inv w r Hr) as [w' Hu].
  eexists _, w'. split; [exact (ProductImage_render w w' r Hu) |].
  rewrite Hp. cbn [fmap option_fmap option_map]. unfold displayedSource.
  destruct (Types.images p); reflexivity.
Qed.

Lemma info_panel_shows_product_witness :
  exists panel w' cents,
    ProductInfo resolvedWorld = JS.Normal (panel, w')
    /\ slotText "title" panel = Some "Test Product"
    /\ nearestHundredths 7036170730324623 (2 ^ 46) cents
    /\ slotText "price" panel = Some ("$" +:+ twoDecimalPlaces false cents)
    /\ slotText "description" panel = Some "Test description".
Proof.
  apply (info_panel_shows_product resolvedWorld
           {| data := Some mockProduct; isLoading := false; error := None |}
           mockProduct);
    vm_compute; reflexivity.
Defined.

(** A price of [1e21] is printed in exponent notation: the price slot
    reads "$1e+21", which is not a number with two decimal places. *)
Lemma info_panel_price_1e21 :
  exists panel w',
    ProductInfo priceyWorld = JS.Normal (panel, w')
    /\ slotText "price" panel = Some "$1e+21"
    /\ forall negative cents,
         slotText "price" panel <> Some ("$" +:+ twoDecimalPlaces negative cents).
Proof.
  assert (Hu : exists w', useProduct priceyWorld
               = JS.Normal ({| data := Some (withPrice (JS.Number "1e21") mockProduct);
                               isLoading := false; error := None |}, w')).
  { eexists. vm_compute. reflexivity. }
  destruct Hu as [w' Hu].
  eexists _, w'. split; [exact (ProductInfo_render _ _ _ Hu) |].
  cbn [data].
  match goal with
  | |- ?s = _ /\ _ => assert (Hs : s = Some "$1e+21") by (vm_compute; reflexivity)
  end.
  split; [exact Hs |].
  intros negative cents H. rewrite Hs in H.
  unfold twoDecimalPlaces in H. injection H as H.
  assert (Hnil : forall s : string, EmptyString +:+ s = s) by reflexivity.
  rewrite Hnil in H.
  apply (f_equal list_ascii_of_string) in H.
  rewrite list_ascii_of_string_of_list_ascii in H.
  apply (f_equal (@rev ascii)) in H.
  rewrite !rev_app_distr in H. cbn in H. discriminate H.
Qed.

Lemma info_panel_total_without_entity_witness :
  exists panel w',
    ProductInfo loadingWorld = JS.Normal (panel, w')
    /\ slotText "title" panel = Some EmptyString
    /\ slotText "price" panel = Some "$"
    /\ slotText "description" panel = Some EmptyString.
Proof.
  apply (info_panel_total_without_entity loadingWorld
           {| data := None; isLoading := true; error := None |});
    vm_compute; reflexivity.
Defined.

Lemma image_panel_source_witness :
  exists panel w',
    ProductImage resolvedWorld = JS.Normal (panel, w')
    /\ imageSource panel = Some "https://example.com/image.jpg".
Proof.
  apply (image_panel_source resolvedWorld
           {| data := Some mockProduct; isLoading := false; error := None |}
           mockProduct);
    vm_compute; reflexivity.
Defined.

(** ** Rendering and events *)

Lemma useProduct_eq (w : World) :
  useProduct w =
    JS.Normal
      (resultOf (if startsFetch w
                 then fetchState (queryFn (useProduct_options (JS.Number (route w)))) (entryOf w)
                 else entryOf w),
       {| route := route w;
          cache :=
            <[hashOf (route w) :=
                if startsFetch w
                then fetchState (queryFn (useProduct_options (JS.Number (route w)))) (entryOf w)
                else entryOf w]> (cache w);
          observer := Some (useProduct_options (JS.Number (route w)));
          calls :=
            if startsFetch w
            then (hashOf (route w), productService.getProduct (JS.Number (route w))) :: calls w
            else calls w;
          retry := retry w |}).
Proof. reflexivity. Qed.

Lemma render_eq (w : World) :
  render w =
    {| route := route w;
       cache :=
         <[hashOf (route w) :=
             if startsFetch w
             then fetchState (queryFn (useProduct_options (JS.Number (route w)))) (entryOf w)
             else entryOf w]> (cache w);
       observer := Some (useProduct_options (JS.Number (route w)));
       calls :=
         if startsFetch w
         then (hashOf (route w), productService.getProduct (JS.Number (route w))) :: calls w
         else calls w;
       retry := retry w |}.
Proof.
  destruct (render_useProduct w) as [r Hr]. rewrite useProduct_eq in Hr.
  by injection Hr.
Qed.

Lemma render_route (w : World) : route (render w) = route w.
Proof. by rewrite render_eq. Qed.

Lemma render_retry (w : World) : retry (render w) = retry w.
Proof. by rewrite render_eq. Qed.

Lemma hookResult_mounted (w : World) (q : QueryState) :
  mounted w -> cache w !! hashOf (route w) = Some q ->
  hookResult w = JS.Normal (resultOf q).
Proof.
  intros Hm Hq. destruct (useProduct_mounted w Hm) as (q' & Hq' & Hu).
  unfold hookResult. rewrite Hu. congruence.
Qed.

(** Events other than navigation leave the route and the observer
    alone and keep the observed entry in the cache. *)
Lemma onEvent_route (ev : Event) (w : World) :
  isNavigate ev = false -> route (onEvent ev w) = route w.
Proof.
  destruct ev; try discriminate; intros _; cbn [onEvent];
    repeat case_match; cbn; first [reflexivity | congruence].
Qed.

Lemma onEvent_observer (ev : Event) (w : World) :
  observer (onEvent ev w) = observer w.
Proof.
  destruct ev; cbn [onEvent]; repeat case_match; cbn; first [reflexivity | congruence].
Qed.

Lemma onEvent_retry (ev : Event) (w : World) :
  retry (onEvent ev w) = retry w.
Proof.
  destruct ev; cbn [onEvent]; repeat case_match; cbn; first [reflexivity | congruence].
Qed.

Lemma onEvent_keeps_entry (ev : Event) (w : World) :
  isNavigate ev = false -> mounted w ->
  is_Some (cache (onEvent ev w) !! hashOf (route w)).
Proof.
  intros Hnav [Hobs Hsome]. destruct ev; try discriminate; cbn [onEvent].
  - repeat case_match; try assumption. cbn [cache withCache].
    apply lookup_insert_is_Some'; by right.
  - repeat case_match; try assumption; cbn [cache withCache];
      apply lookup_insert_is_Some'; by right.
  - rewrite Hobs. repeat case_match; try assumption. cbn [cache].
    apply lookup_insert_is_Some'; by right.
  - rewrite Hobs. fold (hashOf (route w)).
    destruct (cache w !! hash) as [q |]; [| assumption].
    case_bool_decide as Hne; [assumption |].
    destruct (is_idle q); [| assumption].
    cbn [cache withCache]. by rewrite lookup_delete_ne.
Qed.

Lemma onEvent_mounted (ev : Event) (w : World) :
  isNavigate ev = false -> mounted w -> mounted (onEvent ev w).
Proof.
  intros Hnav Hm. split.
  - rewrite onEvent_observer, onEvent_route by assumption. apply Hm.
  - rewrite onEvent_route by assumption. by apply onEvent_keeps_entry.
Qed.

(** Between navigations the render that follows an event changes
    nothing. *)
Lemma step_quiet (ev : Event) (w : World) :
  isNavigate ev = false -> mounted w -> step w ev = onEvent ev w.
Proof. intros Hnav Hm. unfold step. by apply render_fix, onEvent_mounted. Qed.

Lemma step_mounted (ev : Event) (w : World) : mounted (step w ev).
Proof. apply render_mounted. Qed.

Lemma enter_mounted (retries : nat) (s : string) : mounted (enter retries s).
Proof. apply render_mounted. Qed.

Lemma run_app (evs1 evs2 : list Event) (w : World) :
  run (evs1 ++ evs2) w = run evs2 (run evs1 w).
Proof. apply fold_left_app. Qed.

Lemma run_mounted (evs : list Event) (w : World) :
  mounted w -> mounted (run evs w).
Proof.
  revert w. induction evs as [| ev evs IH]; intros w Hm; [exact Hm |].
  apply IH, step_mounted.
Qed.

(** ** Rejections and retries *)

Lemma onEvent_reject_retry (w : World) (h : string) (e : Error) (q : QueryState) :
  cache w !! h = Some q -> fetchStatus q = fetching ->
  (fetchFailureCount q < retry w)%nat ->
  cache (onEvent (Reject h e) w) = <[h := failedAttempt q]> (cache w).
Proof.
  intros Hq Hf Hlt. cbn [onEvent]. rewrite Hq. unfold is_idle. rewrite Hf.
  by rewrite (proj2 (Nat.ltb_lt _ _) Hlt).
Qed.

Lemma onEvent_reject_final (w : World) (h : string) (e : Error) (q : QueryState) :
  cache w !! h = Some q -> fetchStatus q = fetching ->
  (retry w <= fetchFailureCount q)%nat ->
  onEvent (Reject h e) w = withCache w (<[h := rejected e q]> (cache w)).
Proof.
  intros Hq Hf Hge. cbn [onEvent]. rewrite Hq. unfold is_idle. rewrite Hf.
  by rewrite (proj2 (Nat.ltb_ge _ _) Hge).
Qed.

(** While retries remain, a rejection leaves the query fetching, with
    its data, and counts the failure. *)
Lemma run_rejects_retried (errs : list Error) :
  forall (w : World) (q : QueryState),
    mounted w ->
    cache w !! hashOf (route w) = Some q ->
    fetchStatus q = fetching ->
    (fetchFailureCount q + length errs <= retry w)%nat ->
    exists q',
      mounted (run (map (Reject (hashOf (route w))) errs) w)
      /\ route (run (map (Reject (hashOf (route w))) errs) w) = route w
      /\ retry (run (map (Reject (hashOf (route w))) errs) w) = retry w
      /\ cache (run (map (Reject (hashOf (route w))) errs) w) !! hashOf (route w) = Some q'
      /\ fetchStatus q' = fetching
      /\ fetchFailureCount q' = (fetchFailureCount q + length errs)%nat
      /\ state_data q' = state_data q.
Proof.
  induction errs as [| e errs IH]; intros w q Hm Hq Hf Hlen.
  - exists q. cbn. rewrite Nat.add_0_r. auto 10.
  - cbn [map run fold_left length] in *.
    set (h := hashOf (route w)) in *.
    assert (Hstep : step w (Reject h e) = onEvent (Reject h e) w)
      by (by apply step_quiet).
    assert (Hroute : route (step w (Reject h e)) = route w)
      by (rewrite Hstep; by apply onEvent_route).
    assert (Hcache : cache (step w (Reject h e)) !! h = Some (failedAttempt q)).
    { rewrite Hstep, (onEvent_reject_retry w h e q) by (assumption || lia).
      apply lookup_insert_eq. }
    destruct (IH (step w (Reject h e)) (failedAttempt q)) as (q' & H1 & H2 & H3 & H4 & H5 & H6 & H7).
    + apply step_mounted.
    + by rewrite Hroute.
    + reflexivity.
    + rewrite Hstep, onEvent_retry. cbn [fetchFailureCount failedAttempt]. lia.
    + rewrite Hroute in *. fold h in H1, H2, H3, H4. fold (run (map (Reject h) errs) (step w (Reject h e))) in *.
      assert (Hret : retry (step w (Reject h e)) = retry w)
        by (by rewrite Hstep, onEvent_retry).
      exists q'. rewrite Hret in H3.
      cbn [fetchFailureCount failedAttempt state_data] in H6, H7.
      split; [exact H1 |]. split; [exact H2 |]. split; [exact H3 |].
      split; [exact H4 |]. split; [exact H5 |]. split; [lia | exact H7].
Qed.

(** The rejection that uses up the retries ends the fetch: its error is
    the entry's error, and the page prints its message. *)
Lemma last_rejection_surfaces
    (w : World) (q : QueryState) (errs : list Error) (e : Error) :
  mounted w ->
  cache w !! hashOf (route w) = Some q ->
  fetchStatus q = fetching ->
  (fetchFailureCount q + length errs)%nat = retry w ->
  hookResult (run (map (Reject (hashOf (route w))) (errs ++ [e])) w)
  = JS.Normal {| data := state_data q; isLoading := false; error := Some e |}
  /\ exists page,
       view (run (map (Reject (hashOf (route w))) (errs ++ [e])) w) = JS.Normal page
       /\ errorText page = Some ("Error loading product: " +:+ message e).
Proof.
  intros Hm Hq Hf Hlen.
  destruct (run_rejects_retried errs w q Hm Hq Hf ltac:(lia))
    as (q' & Hm' & Hroute & Hretry & Hq' & Hf' & Hcount & Hdata).
  rewrite map_app, run_app. cbn [map run fold_left].
  set (h := hashOf (route w)) in *.
  set (w1 := run (map (Reject h) errs) w) in *.
  assert (Hstep : step w1 (Reject h e) = withCache w1 (<[h := rejected e q']> (cache w1))).
  { rewrite step_quiet by (reflexivity || assumption).
    apply onEvent_reject_final; [assumption | assumption | lia]. }
  assert (Hm2 : mounted (step w1 (Reject h e))) by apply step_mounted.
  assert (Hres : hookResult (step w1 (Reject h e))
                 = JS.Normal {| data := state_data q; isLoading := false; error := Some e |}).
  { rewrite (hookResult_mounted _ (rejected e q') Hm2).
    - unfold resultOf. cbn. by rewrite Hdata.
    - rewrite Hstep. cbn [route withCache cache]. rewrite Hroute.
      apply lookup_insert_eq. }
  split; [exact Hres |].
  destruct (view_shows (step w1 (Reject h e))) as (page & r & w2 & Hu & Hv & _ & _ & _ & Htext).
  exists page. split; [exact Hv |].
  unfold hookResult in Hres. rewrite Hu in Hres. injection Hres as ->.
  exact Htext.
Qed.



(** Entering a route with a truthy id starts the first fetch. *)
Lemma enter_fetching (retries : nat) (s : string) :
  JS.ToBoolean (JS.Number s) = true ->
  route (enter retries s) = s
  /\ retry (enter retries s) = retries
  /\ cache (enter retries s) !! hashOf s
     = Some (fetchState (queryFn (useProduct_options (JS.Number s))) initialState).
Proof.
  intros Ht. unfold enter.
  assert (Hst : startsFetch (initialWorld retries s) = true).
  { unfold startsFetch, entryOf, observes_enabled.
    cbn [initialWorld route cache observer]. rewrite enabled_truthy, Ht, lookup_empty.
    reflexivity. }
  rewrite render_eq, Hst. cbn [route retry cache initialWorld].
  split; [reflexivity |]. split; [reflexivity |].
  unfold entryOf. cbn [route cache initialWorld]. rewrite lookup_empty.
  apply lookup_insert_eq.
Qed.

(** Scenario B for every enabled route and every retry configuration:
    the producer rejects each attempt, and the error of the last attempt
    is what the hook returns and what the page prints. *)
Lemma rejection_after_entering
    (retries : nat) (s : string) (errs : list Error) (e : Error) :
  JS.ToBoolean (JS.Number s) = true ->
  length errs = retries ->
  hookResult (run (map (Reject (hashOf s)) (errs ++ [e])) (enter retries s))
  = JS.Normal {| data := None; isLoading := false; error := Some e |}
  /\ exists page,
       view (run (map (Reject (hashOf s)) (errs ++ [e])) (enter retries s))
       = JS.Normal page
       /\ errorText page = Some ("Error loading product: " +:+ message e).
Proof.
  intros Ht Hlen. destruct (enter_fetching retries s Ht) as (Hroute & Hretry & Hq).
  pose proof (last_rejection_surfaces (enter retries s)
                (fetchState (queryFn (useProduct_options (JS.Number s))) initialState)
                errs e (enter_mounted retries s)) as H.
  rewrite Hroute, Hretry in H. apply (H Hq); [reflexivity | exact Hlen].
Qed.

(** Scenario C for every enabled route and every product: when the
    producer resolves, the hook returns the product. *)
Lemma resolve_after_entering (retries : nat) (s : string) (p : Types.Product) :
  JS.ToBoolean (JS.Number s) = true ->
  hookResult (run [Resolve (hashOf s) p] (enter retries s))
  = JS.Normal {| data := Some p; isLoading := false; error := None |}.
Proof.
  intros Ht. destruct (enter_fetching retries s Ht) as (Hroute & _ & Hq).
  cbn [run fold_left].
  assert (Hstep : step (enter retries s) (Resolve (hashOf s) p)
                  = onEvent (Resolve (hashOf s) p) (enter retries s))
    by (apply step_quiet; [reflexivity | apply enter_mounted]).
  pose proof (step_mounted (Resolve (hashOf s) p) (enter retries s)) as Hm.
  rewrite (hookResult_mounted _ (resolved p
             (fetchState (queryFn (useProduct_options (JS.Number s))) initialState)) Hm);
    [reflexivity |].
  rewrite Hstep. cbn [onEvent]. rewrite Hq. cbn [is_idle fetchStatus fetchState].
  cbn [route withCache cache]. rewrite Hroute. apply lookup_insert_eq.
Qed.


(** ** The key and the producer *)

(** C2: for every current route, the hook derives [id] from the
    [productId] parameter, attaches to the cache entry of the key
    [['product', id]] with the producer [getProduct(id)], and returns
    the manual-mode triple of that entry; the only request a call of
    the hook can issue is [getProduct(id)] under that key, and entering
    a route with a truthy id on an empty cache issues exactly that
    request. *)
Theorem useProduct_key_and_producer :
  (forall w : World,
      exists r w' o q,
        useProduct w = JS.Normal (r, w')
        /\ observer w' = Some o
        /\ queryKey o = [KString "product"; KNumber (JS.Number (route w))]
        /\ queryFn o tt = productService.getProduct (JS.Number (route w))
        /\ cache w' !! hashKey [KString "product"; KNumber (JS.Number (route w))] = Some q
        /\ data r = state_data q
        /\ error r = state_error q
        /\ isLoading r = bool_decide (status q = status_pending /\ fetchStatus q = fetching)
        /\ (calls w' = calls w
            \/ calls w' =
                 (hashKey [KString "product"; KNumber (JS.Number (route w))],
                  productService.getProduct (JS.Number (route w))) :: calls w
               /\ fetchStatus q = fetching))
  /\ (forall (retries : nat) (s : string),
         calls (enter retries s) =
           if JS.ToBoolean (JS.Number s)
           then [(hashKey [KString "product"; KNumber (JS.Number s)],
                  productService.getProduct (JS.Number s))]
           else []).
Proof.
  split.
  - intros w. rewrite useProduct_eq.
    eexists _, _, _, _. split; [reflexivity |].
    cbn [observer cache calls]. split; [reflexivity |].
    split; [reflexivity |]. split; [reflexivity |].
    split; [apply lookup_insert_eq |].
    split; [reflexivity |]. split; [reflexivity |].
    split.
    + cbn [isLoading resultOf].
      destruct (if startsFetch w then _ else _) as [d e [] [] n f]; cbn;
        first [ by rewrite bool_decide_eq_true_2
              | rewrite bool_decide_eq_false_2; [reflexivity | intros [? ?]; discriminate] ].
    + destruct (startsFetch w); [right | left]; auto.
  - intros retries s. unfold enter. rewrite render_eq.
    cbn [calls initialWorld route].
    unfold startsFetch, entryOf, observes_enabled.
    cbn [cache initialWorld route observer]. rewrite lookup_empty.
    cbn. by destruct (JS.ToBoolean (JS.Number s)).
Qed.

(** The key [['product', 1]] is hashed to its JSON text. *)
Example hashOf_1 :
  hashOf "1"
  = "[" +:+ String (ascii_of_nat 34) ("product" +:+ String (ascii_of_nat 34) ",1]").
Proof. vm_compute. reflexivity. Qed.




(** The strings "1", "01" and "1.0" all convert to the number 1. *)
Example Number_1_01_1_0 :
  JS.Number "01" = JS.Number "1" /\ JS.Number "1.0" = JS.Number "1"
  /\ integerValue (JS.Number "1") = Some 1.
Proof. vm_compute. auto. Qed.

(** ** Requests are only issued for truthy ids *)

Lemma startsFetch_truthy (w : World) :
  startsFetch w = true -> JS.ToBoolean (JS.Number (route w)) = true.
Proof.
  unfold startsFetch. rewrite enabled_truthy.
  by destruct (JS.ToBoolean (JS.Number (route w))).
Qed.

Lemma entryOf_truthyProducer (w : World) :
  truthyCalls w -> truthyProducer (entryOf w).
Proof.
  intros [_ Hc]. unfold entryOf.
  destruct (cache w !! hashOf (route w)) as [q |] eqn:Hq; [by eapply Hc |].
  exact I.
Qed.

Lemma render_truthyCalls (w : World) : truthyCalls w -> truthyCalls (render w).
Proof.
  intros Ht. pose proof (entryOf_truthyProducer w Ht) as He.
  destruct Ht as [Hcalls Hcache]. rewrite render_eq. split; cbn [calls cache].
  - destruct (startsFetch w) eqn:Hs; [| exact Hcalls].
    constructor; [| exact Hcalls]. by apply startsFetch_truthy.
  - intros h q [[<- <-] | [_ Hq]]%lookup_insert_Some; [| by eapply Hcache].
    destruct (startsFetch w) eqn:Hs; [| exact He].
    by apply startsFetch_truthy.
Qed.

Lemma onEvent_truthyCalls (ev : Event) (w : World) :
  mounted w -> truthyCalls w -> truthyCalls (onEvent ev w).
Proof.
  intros [Hobs _] [Hcalls Hcache]. destruct ev as [s | h p | h e | | h]; cbn [onEvent].
  - by split.
  - destruct (cache w !! h) as [q |] eqn:Hq; [| by split].
    destruct (is_idle q); [by split |]. split; [exact Hcalls |].
    cbn [cache withCache].
    intros h' q' [[<- <-] | [_ Hq']]%lookup_insert_Some; [| by eapply Hcache].
    exact (Hcache _ _ Hq).
  - destruct (cache w !! h) as [q |] eqn:Hq; [| by split].
    destruct (is_idle q); [by split |].
    pose proof (Hcache _ _ Hq) as Hp.
    destruct (fetchFailureCount q <? retry w)%nat.
    + split; cbn [calls cache].
      * unfold truthyProducer in Hp.
        destruct (state_queryFn q) as [fn |]; [| exact Hcalls].
        constructor; [exact Hp | exact Hcalls].
      * intros h' q' [[<- <-] | [_ Hq']]%lookup_insert_Some; [exact Hp | by eapply Hcache].
    + split; [exact Hcalls |]. cbn [cache withCache].
      intros h' q' [[<- <-] | [_ Hq']]%lookup_insert_Some; [exact Hp | by eapply Hcache].
  - rewrite Hobs. fold (hashOf (route w)).
    destruct (cache w !! hashOf (route w)) as [q |] eqn:Hq; [| by split].
    rewrite enabled_truthy.
    destruct (JS.ToBoolean (JS.Number (route w))) eqn:Ht; [| by split].
    destruct (is_idle q); [| by split].
    split; cbn [calls cache andb].
    + constructor; [exact Ht | exact Hcalls].
    + intros h' q' [[<- <-] | [_ Hq']]%lookup_insert_Some; [exact Ht | by eapply Hcache].
  - assert (Hdel : truthyCalls (withCache w (delete h (cache w)))).
    { split; [exact Hcalls |]. cbn [cache withCache].
      intros h' q' [_ Hq']%lookup_delete_Some. by eapply Hcache. }
    repeat case_match; first [by split | exact Hdel].
Qed.

Lemma run_truthyCalls (evs : list Event) :
  forall w : World, mounted w -> truthyCalls w -> truthyCalls (run evs w).
Proof.
  induction evs as [| ev evs IH]; intros w Hm Ht; [exact Ht |].
  cbn [run fold_left]. apply IH; [apply step_mounted |].
  by apply render_truthyCalls, onEvent_truthyCalls.
Qed.

(** Whatever route is entered and whatever happens afterwards, every
    request issued carries a truthy id. *)
Lemma reachable_truthyCalls (retries : nat) (s0 : string) (evs : list Event) :
  Forall (fun c => JS.ToBoolean (requestId c) = true)
    (calls (run evs (enter retries s0))).
Proof.
  apply run_truthyCalls; [apply enter_mounted |].
  apply render_truthyCalls. split; [constructor |].
  intros h q Hq. cbn in Hq. by rewrite lookup_empty in Hq.
Qed.

Lemma reachable_never_requests (s : string) (retries : nat) (s0 : string)
    (evs : list Event) :
  JS.ToBoolean (JS.Number s) = false ->
  Forall (fun c => requestId c <> JS.Number s)
    (calls (run evs (enter retries s0))).
Proof.
  intros Hs. eapply Forall_impl; [apply reachable_truthyCalls |].
  intros c Hc Heq. cbn beta in Hc. congruence.
Qed.

Lemma render_disabled_calls (w : World) :
  JS.ToBoolean (JS.Number (route w)) = false -> calls (render w) = calls w.
Proof.
  intros Hs. rewrite render_eq. cbn [calls].
  destruct (startsFetch w) eqn:Hst; [| reflexivity].
  apply startsFetch_truthy in Hst. congruence.
Qed.

(** C4: in manual mode, for every route parameter whose derived id is
    falsy, the hook never invokes the producer: rendering the page on
    that route issues no request, a refetch trigger of the coordinator
    issues none for its disabled observer, and no world reachable from
    entering any route ever holds a request for that id. *)
Theorem falsy_id_never_invokes_producer (s : string) :
  JS.ToBoolean (JS.Number s) = false ->
  (forall w : World, route w = s -> calls (render w) = calls w)
  /\ (forall w : World, route w = s -> mounted w -> calls (step w Refetch) = calls w)
  /\ (forall (retries : nat) (s0 : string) (evs : list Event),
         Forall (fun c => requestId c <> JS.Number s)
           (calls (run evs (enter retries s0)))).
Proof.
  intros Hs. split; [| split].
  - intros w <-. by apply render_disabled_calls.
  - intros w <- Hm. rewrite step_quiet by (reflexivity || assumption).
    destruct Hm as [Hobs _]. cbn [onEvent]. rewrite Hobs.
    rewrite enabled_truthy, Hs. by destruct (cache w !! _).
  - intros retries s0 evs. by apply reachable_never_requests.
Qed.

Lemma falsy_id_never_invokes_producer_witness :
  (forall w : World, route w = "0" -> calls (render w) = calls w)
  /\ (forall w : World, route w = "0" -> mounted w -> calls (step w Refetch) = calls w)
  /\ (forall (retries : nat) (s0 : string) (evs : list Event),
         Forall (fun c => requestId c <> JS.Number "0")
           (calls (run evs (enter retries s0)))).
Proof.
  apply (falsy_id_never_invokes_producer "0"). vm_compute. reflexivity.
Defined.

(** ** A disabled query stays pristine *)


Section DisabledRoute.

(** A route parameter whose id is falsy. *)
Variable s : string.
Hypothesis falsy : JS.ToBoolean (JS.Number s) = false.





End DisabledRoute.




(** Why the key must have no entry yet: the keys [['product', NaN]]
    and [['product', Infinity]] have the same hash, so on the route
    "abc", entered after the route "Infinity" was fetched, the disabled
    hook returns the data (or the error) of that fetch. *)
Lemma NaN_key_shares_entry_with_Infinity :
  JS.Number "abc" = JS.NaN
  /\ hashOf "abc" = hashOf "Infinity"
  /\ hookResult
       (run [Resolve (hashOf "Infinity") mockProduct; Navigate "abc"]
          (enter 0 "Infinity"))
     = JS.Normal {| data := Some mockProduct; isLoading := false; error := None |}
  /\ hookResult
       (run [Reject (hashOf "Infinity") failedToFetch; Navigate "abc"]
          (enter 0 "Infinity"))
     = JS.Normal {| data := None; isLoading := false; error := Some failedToFetch |}.
Proof. vm_compute. auto. Qed.

(** The parameter "0" is present and well formed, and falsy. *)
Example falsy_id_0 :
  JS.Number "0" = S754_zero false
  /\ hookResult (enter 0 "0")
     = JS.Normal {| data := None; isLoading := false; error := None |}
  /\ calls (enter 0 "0") = [].
Proof. vm_compute. auto. Qed.

(** ** Exactly one of loading, error and content *)











(** With a falsy id the page shows none of the three. *)
Lemma page_shows_nothing_for_falsy_id :
  exists page,
    view (enter 0 "0") = JS.Normal page
    /\ showsLoading page = false
    /\ showsError page = false
    /\ showsContent page = false
    /\ visibleCount page <> 1%nat.
Proof. eexists. vm_compute. repeat split; try reflexivity. discriminate. Qed.


(** ** Numeric conversion of digit strings *)

Lemma digits2_pos_size (m : positive) : digits2_pos m = Pos.size m.
Proof. induction m as [m IH | m IH |]; cbn; by rewrite ?IH. Qed.

Lemma iter_xO_value (m n : positive) :
  Z.pos (Pos.iter xO m n) = Z.pos m * 2 ^ Z.pos n.
Proof.
  induction n as [| n IH] using Pos.peano_ind.
  - cbn. lia.
  - rewrite Pos.iter_succ, Pos2Z.inj_xO, IH, Pos2Z.inj_succ, Z.pow_succ_r by lia. lia.
Qed.

Lemma iter_xO_digits (m n : positive) :
  digits2_pos (Pos.iter xO m n) = (digits2_pos m + n)%positive.
Proof.
  induction n as [| n IH] using Pos.peano_ind.
  - cbn. by rewrite Pos.add_1_r.
  - rewrite Pos.iter_succ. cbn [digits2_pos]. by rewrite IH, Pos.add_succ_r.
Qed.

Lemma iter_xO_even (m n : positive) :
  exists y,
    Pos.iter xO m n = xO y
    /\ Z.pos y = Z.pos m * 2 ^ (Z.pos n - 1)
    /\ Z.pos (digits2_pos y) = Z.pos (digits2_pos m) + Z.pos n - 1.
Proof.
  destruct n as [| n] using Pos.peano_case.
  - exists m. cbn. split; [reflexivity |]. split; lia.
  - exists (Pos.iter xO m n). rewrite Pos.iter_succ. split; [reflexivity |].
    rewrite iter_xO_value, iter_xO_digits, Pos2Z.inj_succ, Pos2Z.inj_add.
    split; [f_equal; f_equal; lia | lia].
Qed.

Lemma shiftl_pos (m n : positive) :
  Z.shiftl (Z.pos m) (Z.pos n) = Z.pos (Pos.iter xO m n).
Proof.
  rewrite Z.shiftl_mul_pow2, iter_xO_value by lia. reflexivity.
Qed.

Lemma digits2_bound (m : positive) (k : Z) :
  0 <= k -> Z.pos m < 2 ^ k -> Z.pos (digits2_pos m) <= k.
Proof.
  intros Hk Hlt. rewrite digits2_pos_size.
  destruct (Z_le_gt_dec (Z.pos (Pos.size m)) k) as [Hle | Hgt]; [exact Hle |].
  pose proof (Pos.size_le m) as Hsz.
  apply Pos2Z.pos_le_pos in Hsz. rewrite Pos2Z.inj_pow in Hsz.
  assert (Hpow : 2 ^ (k + 1) <= 2 ^ Z.pos (Pos.size m))
    by (apply Z.pow_le_mono_r; lia).
  rewrite Z.pow_add_r in Hpow by lia. change (2 ^ 1) with 2 in Hpow. lia.
Qed.

Lemma div_eucl_1 (a : Z) : Z.div_eucl a 1 = (a, 0).
Proof.
  pose proof (Z.div_1_r a) as Hq. pose proof (Z.mod_1_r a) as Hr.
  unfold Z.div, Z.modulo in Hq, Hr.
  destruct (Z.div_eucl a 1) as [q r]. congruence.
Qed.

(** An integer below [2 ^ 53] is a number: the conversion is exact. *)
Lemma round_ratio_integer (neg : bool) (m : positive) :
  Z.pos m < 2 ^ 53 ->
  exists (y : positive) (e : Z),
    JS.round_ratio neg m 1 = S754_finite neg y e
    /\ e <= 0
    /\ Z.pos y = Z.pos m * 2 ^ (- e).
Proof.
  intros Hm. pose proof (digits2_bound m 53 ltac:(lia) Hm) as Hd.
  unfold JS.round_ratio, SFdiv_core_binary, JS.prec, JS.emax.
  cbn [Zdigits2]. unfold fexp, emin. change (digits2_pos 1) with 1%positive.
  set (d := Z.pos (digits2_pos m)) in *.
  assert (Hd1 : 1 <= d) by (unfold d; lia).
  replace (Z.min (Z.max (d + 0 - (1 + 0) - 53) (3 - 1024 - 53)) (0 - 0))
    with (d - 54) by lia.
  replace (0 - 0 - (d - 54)) with (54 - d) by lia.
  destruct (54 - d) as [| s | s] eqn:Hs; try lia.
  change IntDef.Z.div_eucl with Z.div_eucl.
  rewrite shiftl_pos, div_eucl_1.
  destruct (iter_xO_even m s) as (y & Hy & Hval & Hdig).
  fold d in Hdig.
  change (new_location 1 0) with loc_Exact.
  unfold binary_round_aux, shr_fexp, shr. cbn [Zdigits2 shr_record_of_loc].
  rewrite iter_xO_digits, Pos2Z.inj_add. fold d. unfold fexp, emin.
  replace (Z.max (d + Z.pos s + (d - 54) - 53) (3 - 1024 - 53) - (d - 54))
    with 1 by lia.
  rewrite Hy.
  cbn [SpecFloat.iter_pos shr_1 orb shr_m loc_of_shr_record round_nearest_even
         Zdigits2 shr_record_of_loc].
  replace (Z.max (Z.pos (digits2_pos y) + (d - 54 + 1) - 53) (3 - 1024 - 53) - (d - 54 + 1))
    with 0 by lia.
  cbn [shr_m].
  rewrite (proj2 (Z.leb_le (d - 54 + 1) (1024 - 53))) by lia.
  exists y, (d - 54 + 1). split; [reflexivity |]. split; [lia |].
  rewrite Hval. f_equal. f_equal. lia.
Qed.

Lemma shiftl_1_value (k : positive) :
  Z.pos (Pos.shiftl 1 (Npos k)) = 2 ^ Z.pos k.
Proof.
  change (Pos.shiftl 1 (N.pos k)) with (Pos.iter xO 1%positive k).
  rewrite iter_xO_value. lia.
Qed.

Lemma integerValue_exact (neg : bool) (y : positive) (e : Z) (v : Z) :
  e <= 0 -> Z.pos y = v * 2 ^ (- e) ->
  integerValue (S754_finite neg y e) = Some (if neg then - v else v)
  /\ JS.isInteger (S754_finite neg y e) = true.
Proof.
  intros He Hv. unfold integerValue, JS.isInteger, JS.ratio_of.
  destruct e as [| k | k]; [| lia |].
  - cbn in Hv. rewrite Z.mod_1_r, Z.div_1_r. cbn. split; [| reflexivity].
    by replace v with (Z.pos y) by lia.
  - rewrite shiftl_1_value. change (- Z.neg k) with (Z.pos k) in Hv.
    rewrite Hv, Z.mod_mul, Z.div_mul by lia. by split.
Qed.

Lemma digit_code (c : ascii) :
  isDecimalDigit c = true -> 48 <= JS.code c <= 57.
Proof. unfold isDecimalDigit. intros [?%Z.leb_le ?%Z.leb_le]%andb_true_iff. lia. Qed.

Lemma digit_is_char (c : ascii) (n : Z) :
  isDecimalDigit c = true -> n < 48 \/ 57 < n -> JS.is_char c n = false.
Proof. intros Hc%digit_code Hn. unfold JS.is_char. apply Z.eqb_neq. lia. Qed.

Lemma digit_not_white_space (c : ascii) :
  isDecimalDigit c = true -> JS.isStrWhiteSpaceChar c = false.
Proof.
  intros Hc%digit_code. unfold JS.isStrWhiteSpaceChar.
  repeat (apply orb_false_intro); apply Z.eqb_neq; lia.
Qed.

Lemma digit_value_decimal (c : ascii) :
  isDecimalDigit c = true -> JS.digit_value 10 c = Some (JS.code c - 48).
Proof.
  intros Hc. pose proof (digit_code c Hc) as Hr. unfold JS.digit_value.
  unfold isDecimalDigit in Hc. rewrite Hc.
  by rewrite (proj2 (Z.ltb_lt (JS.code c - 48) 10)) by lia.
Qed.

Lemma read_digits_all (ds : list ascii) :
  forallb isDecimalDigit ds = true ->
  forall acc cnt,
    JS.read_digits 10 ds acc cnt
    = (fold_left (fun a c => a * 10 + (JS.code c - 48)) ds acc,
       cnt + Z.of_nat (length ds), []).
Proof.
  induction ds as [| c ds IH]; intros Hall acc cnt.
  - cbn. by rewrite Z.add_0_r.
  - cbn [forallb] in Hall. apply andb_true_iff in Hall as [Hc Hds].
    cbn [JS.read_digits fold_left length]. rewrite (digit_value_decimal c Hc).
    rewrite (IH Hds). do 2 f_equal. lia.
Qed.

Lemma skipWhiteSpace_digits (ds : list ascii) :
  forallb isDecimalDigit ds = true -> JS.skipWhiteSpace ds = ds.
Proof.
  destruct ds as [| c ds]; [reflexivity |]. cbn [forallb JS.skipWhiteSpace].
  intros [Hc _]%andb_true_iff. by rewrite (digit_not_white_space c Hc).
Qed.

Lemma forallb_rev {A} (f : A -> bool) (l : list A) :
  forallb f l = true -> forallb f (rev l) = true.
Proof.
  rewrite !forallb_forall. intros H x Hx. apply H. by apply in_rev.
Qed.

Lemma trimString_digits (ds : list ascii) :
  forallb isDecimalDigit ds = true -> JS.trimString ds = ds.
Proof.
  intros Hall. unfold JS.trimString.
  rewrite (skipWhiteSpace_digits ds Hall).
  rewrite (skipWhiteSpace_digits (rev ds)) by (by apply forallb_rev).
  apply rev_involutive.
Qed.

Lemma read_non_decimal_digits (ds : list ascii) :
  forallb isDecimalDigit ds = true -> JS.read_non_decimal ds = None.
Proof.
  destruct ds as [| z [| p r]]; try reflexivity. cbn [forallb].
  intros [_ [Hp _]%andb_true_iff]%andb_true_iff. unfold JS.read_non_decimal.
  rewrite !(digit_is_char p) by (assumption || lia). cbn.
  by destruct (JS.is_char z 48).
Qed.

(** A non-empty sequence of decimal digits converts to the integer it
    denotes. *)
Lemma Number_digits (ds : list ascii) :
  ds <> [] -> forallb isDecimalDigit ds = true ->
  JS.Number (string_of_list_ascii ds) = JS.of_decimal false (digitsValue ds) 0.
Proof.
  intros Hne Hall. unfold JS.Number, JS.StringToNumber.
  rewrite list_ascii_of_string_of_list_ascii, (trimString_digits ds Hall).
  destruct ds as [| c ds'] eqn:Hds; [done |]. rewrite <- Hds in *.
  rewrite (read_non_decimal_digits ds Hall).
  assert (Hc : isDecimalDigit c = true)
    by (rewrite Hds in Hall; cbn in Hall; by apply andb_true_iff in Hall as [? _]).
  unfold JS.read_signed_decimal. rewrite Hds at 1.
  rewrite !(digit_is_char c) by (assumption || lia).
  rewrite bool_decide_eq_false_2.
  2: { intros Heq. rewrite Heq in Hall. vm_compute in Hall. discriminate. }
  unfold JS.read_unsigned_decimal. rewrite (read_digits_all ds Hall).
  assert (Hlen : (0 + Z.of_nat (length ds) =? 0) = false)
    by (apply Z.eqb_neq; rewrite Hds; cbn [length]; lia).
  rewrite Hlen. reflexivity.
Qed.

Lemma digitsValue_nonneg (ds : list ascii) :
  forallb isDecimalDigit ds = true -> 0 <= digitsValue ds.
Proof.
  unfold digitsValue. intros Hall.
  assert (Hgen : forall acc, 0 <= acc ->
            0 <= fold_left (fun a c => a * 10 + (JS.code c - 48)) ds acc).
  { induction ds as [| c ds IH]; intros acc Hacc; [exact Hacc |].
    cbn [forallb] in Hall. apply andb_true_iff in Hall as [Hc Hds].
    cbn [fold_left]. apply IH; [exact Hds |].
    pose proof (digit_code c Hc). lia. }
  by apply Hgen.
Qed.

(** C6 (amended): the hook converts the [productId] segment with
    [Number]; for every segment that consists of decimal digits only and
    denotes an integer below [2 ^ 53], the derived id is exactly that
    integer. *)
Theorem digit_segment_derives_integer_id (ds : list ascii) (w : World) :
  ds <> [] ->
  forallb isDecimalDigit ds = true ->
  digitsValue ds < 2 ^ 53 ->
  route w = string_of_list_ascii ds ->
  exists r w' o id,
    useProduct w = JS.Normal (r, w')
    /\ observer w' = Some o
    /\ queryKey o = [KString "product"; KNumber id]
    /\ id = JS.Number (route w)
    /\ JS.isInteger id = true
    /\ integerValue id = Some (digitsValue ds).
Proof.
  intros Hne Hall Hlt Hroute. rewrite useProduct_eq.
  eexists _, _, _, _. split; [reflexivity |]. cbn [observer].
  split; [reflexivity |]. split; [reflexivity |]. split; [reflexivity |].
  rewrite Hroute, (Number_digits ds Hne Hall).
  pose proof (digitsValue_nonneg ds Hall) as Hnn.
  destruct (digitsValue ds) as [| m | m] eqn:Hv; [by split | | lia].
  cbn [JS.of_decimal].
  destruct (round_ratio_integer false m Hlt) as (y & e & -> & He & Hy).
  destruct (integerValue_exact false y e (Z.pos m) He Hy) as [Hi Hb].
  by split.
Qed.

Lemma digit_segment_derives_integer_id_witness :
  exists r w' o id,
    useProduct (initialWorld 0 "42") = JS.Normal (r, w')
    /\ observer w' = Some o
    /\ queryKey o = [KString "product"; KNumber id]
    /\ id = JS.Number (route (initialWorld 0 "42"))
    /\ JS.isInteger id = true
    /\ integerValue id = Some (digitsValue (list_ascii_of_string "42")).
Proof.
  apply (digit_segment_derives_integer_id (list_ascii_of_string "42")
           (initialWorld 0 "42")).
  - discriminate.
  - reflexivity.
  - vm_compute. reflexivity.
  - reflexivity.
Defined.

(** The segment "1.5" is converted to the number 1.5 and "abc" to NaN:
    the derived id is not an integer. *)
Lemma derived_id_not_integer :
  (exists o,
      observer (enter 0 "1.5") = Some o
      /\ queryKey o = [KString "product"; KNumber (JS.Number "1.5")]
      /\ JS.isInteger (JS.Number "1.5") = false
      /\ integerValue (JS.Number "1.5") = None
      /\ JS.toString (JS.Number "1.5") = "1.5")
  /\ JS.Number "abc" = JS.NaN
  /\ JS.isInteger (JS.Number "abc") = false.
Proof.
  split; [eexists; split; [vm_compute; reflexivity |] |]; vm_compute; auto.
Qed.

(** ** The scenarios of the test suite *)

(** Scenario A: while the producer has not settled, the page shows the
    loading indicator and nothing else. *)
Example scenario_A_loading :
  exists page,
    view loadingWorld = JS.Normal page
    /\ showsLoading page = true /\ showsError page = false
    /\ showsContent page = false
    /\ calls loadingWorld = [(hashOf "1", productService.getProduct (JS.Number "1"))].
Proof. eexists. vm_compute. auto. Qed.

(** Scenario B: the producer rejects with "Failed to fetch product";
    the inline error text contains that message. *)
Example scenario_B_error :
  exists page,
    view failedWorld = JS.Normal page
    /\ showsLoading page = false /\ showsError page = true
    /\ showsContent page = false
    /\ errorText page = Some "Error loading product: Failed to fetch product".
Proof. eexists. vm_compute. auto. Qed.

(** Scenario C: the producer resolves with the mock product; the
    detail view shows "Test Product" and "$99.99". *)
Example scenario_C_resolved :
  exists page panel w',
    view resolvedWorld = JS.Normal page
    /\ showsLoading page = false /\ showsError page = false
    /\ showsContent page = true
    /\ ProductInfo resolvedWorld = JS.Normal (panel, w')
    /\ slotText "title" panel = Some "Test Product"
    /\ slotText "price" panel = Some "$99.99".
Proof. eexists _, _, _. vm_compute. auto 10. Qed.

(** Scenario D: navigating from product 1 to product 2 while the fetch
    of 1 is in flight; when 1 resolves, its data is stored under its own
    key and the view for 2 still shows the loading indicator only. *)
Example scenario_D_navigation :
  exists page,
    view (run [Navigate "2"; Resolve (hashOf "1") mockProduct] loadingWorld)
    = JS.Normal page
    /\ showsLoading page = true /\ showsError page = false
    /\ showsContent page = false
    /\ hookResult (run [Navigate "2"; Resolve (hashOf "1") mockProduct] loadingWorld)
       = JS.Normal {| data := None; isLoading := true; error := None |}.
Proof. eexists. vm_compute. auto. Qed.

(** * Further properties of the page and its components *)

(** A second hook call in the world the first one left returns the
    same result and changes nothing. *)
Lemma useProduct_again (w w' : World) (r : QueryResult) :
  useProduct w = JS.Normal (r, w') -> useProduct w' = JS.Normal (r, w').
Proof.
  intros Hu.
  destruct (useProduct_mounts w) as (q & w1 & Hu1 & Hm & Hc & Hr & _).
  rewrite Hu1 in Hu. injection Hu as <- <-.
  destruct (useProduct_mounted w1 Hm) as (q2 & Hc2 & Hu2).
  rewrite Hr, Hc in Hc2. injection Hc2 as <-. exact Hu2.
Qed.

Lemma useProduct_calls (w : World) :
  calls (render w) = calls w
  \/ calls (render w)
     = (hashOf (route w), productService.getProduct (JS.Number (route w))) :: calls w.
Proof.
  rewrite render_eq. cbn [calls]. destruct (startsFetch w); auto.
Qed.

(** The detail view in terms of its panels. *)
Lemma ProductDetail_render (w : World) :
  exists r image info,
    useProduct w = JS.Normal (r, render w)
    /\ ProductImage w = JS.Normal (image, render w)
    /\ ProductInfo w = JS.Normal (info, render w)
    /\ ProductDetail w =
         JS.Normal
           (Element "div" (className "container")
              [ Element "Link" ([("to", "/")] ++ className "backLink")
                  [Text "← Back to Products"];
                Element "div" (className "product")
                  [ image;
                    Element "div" (className "infoSection")
                      [ info; Element "ProductMeta" [] [];
                        Element "ProductActions" [] [] ] ] ],
            render w).
Proof.
  destruct (render_useProduct w) as (r & Hu).
  pose proof (useProduct_again _ _ _ Hu) as Hu'.
  eexists r, _, _. split; [exact Hu |].
  split; [exact (ProductImage_render _ _ _ Hu) |].
  split; [exact (ProductInfo_render _ _ _ Hu) |].
  unfold ProductDetail, ProductNavigation, ProductMeta, ProductActions,
    mbind, M_bind, mret, M_ret.
  rewrite (ProductImage_render _ _ _ Hu), (ProductInfo_render _ _ _ Hu').
  rewrite Hu'. cbn beta iota. rewrite Hu'. reflexivity.
Qed.

(** The page in terms of the hook result and the detail view rendered
    in the world the hook call left. *)
Lemma ProductPage_detail (w : World) :
  exists r detail,
    useProduct w = JS.Normal (r, render w)
    /\ ProductDetail (render w) = JS.Normal (detail, render w)
    /\ isResolvedContent detail = true
    /\ isLoadingIndicator detail = false
    /\ isErrorMessage detail = false
    /\ ProductPage w =
         JS.Normal
           (Element "Layout" []
              [ Element "Layout.Header" [] [Element "Header" [] []];
                Element "Layout.Main" []
                  ((if isLoading r then [loadingIndicator] else [])
                   ++ match error r with
                      | Some e => [errorMessage e]
                      | None => []
                      end
                   ++ match data r with
                      | Some _ => [detail]
                      | None => []
                      end) ],
            render w).
Proof.
  destruct (render_useProduct w) as (r & Hu).
  destruct (ProductDetail_mounted (render w) (render_mounted w))
    as (detail & Hd & Hc & Hl & He).
  exists r, detail. split; [exact Hu |]. split; [exact Hd |].
  split; [exact Hc |]. split; [exact Hl |]. split; [exact He |].
  unfold ProductPage, mbind, M_bind. rewrite Hu.
  unfold Header, mret, M_ret.
  destruct (data r); [rewrite Hd |]; reflexivity.
Qed.


(** X2.  Rendering the page again without an event in between changes
    nothing: the world is the same (no further request is issued), and
    so are the hook result and what the page shows. *)
Theorem rerender_changes_nothing (w : World) :
  render (render w) = render w
  /\ hookResult (render w) = hookResult w
  /\ view (render w) = view w.
Proof.
  pose proof (render_fix _ (render_mounted w)) as Hfix.
  split; [exact Hfix |].
  destruct (ProductPage_detail w) as (r & d & Hu & Hd & _ & _ & _ & Hp).
  destruct (ProductPage_detail (render w)) as (r2 & d2 & Hu2 & Hd2 & _ & _ & _ & Hp2).
  rewrite Hfix in Hu2, Hd2, Hp2.
  rewrite (useProduct_again _ _ _ Hu) in Hu2. injection Hu2 as <-.
  rewrite Hd in Hd2. injection Hd2 as <-.
  split.
  - unfold hookResult. by rewrite Hu, (useProduct_again _ _ _ Hu).
  - unfold view. by rewrite Hp, Hp2.
Qed.

(** X3.  [ProductDetail] never throws and needs no props: its image
    panel and its info panel are what [ProductImage] and [ProductInfo]
    render on their own in the same world, so all of them read one hook
    result; its first child is the link back to "/"; however many of
    its children call the hook, rendering it leaves the world one page
    render leaves, with at most one request added. *)
Theorem detail_view_shares_one_result (w : World) :
  exists detail image info,
    ProductDetail w = JS.Normal (detail, render w)
    /\ ProductImage w = JS.Normal (image, render w)
    /\ ProductInfo w = JS.Normal (info, render w)
    /\ imagePanelOf detail = Some image
    /\ infoPanelOf detail = Some info
    /\ backLink detail = Some (Some "/", "← Back to Products")
    /\ (calls (render w) = calls w
        \/ calls (render w)
           = (hashOf (route w), productService.getProduct (JS.Number (route w)))
             :: calls w).
Proof.
  destruct (ProductDetail_render w) as (r & image & info & _ & Hi & Hn & Hd).
  eexists _, image, info. split; [exact Hd |].
  split; [exact Hi |]. split; [exact Hn |].
  split; [reflexivity |]. split; [reflexivity |]. split; [reflexivity |].
  apply useProduct_calls.
Qed.


(** ** The price the info panel prints *)

Lemma fixed_two_nonempty (n : Z) : JS.fixed_digits 2 n <> [].
Proof.
  unfold JS.fixed_digits. cbv beta iota zeta.
  intros H. apply (f_equal (@length ascii)) in H.
  rewrite !length_app in H. cbn in H. lia.
Qed.

Lemma format_shortest_nonempty (ds : list ascii) (n : Z) :
  ds <> [] -> JS.format_shortest ds n <> [].
Proof.
  intros Hds. unfold JS.format_shortest.
  destruct ds as [| d rest]; [done |].
  repeat case_match; intros Hnil; apply (f_equal (@length ascii)) in Hnil;
    rewrite ?length_app in Hnil; cbn [length list_ascii_of_string] in Hnil; lia.
Qed.

Lemma toString_positive_nonempty (m : positive) (e : Z) :
  JS.toString_positive m e <> [].
Proof.
  unfold JS.toString_positive. destruct (JS.ratio_of m e) as [num den].
  destruct (JS.shortest _ _ _ _ _ _) as [s n'].
  apply format_shortest_nonempty. pose proof (decimal_nonempty s) as Hlen.
  intros Heq. rewrite Heq in Hlen. cbn in Hlen. lia.
Qed.

(** [toFixed(2)] never prints the empty string. *)
Lemma toFixed_nonempty (x : JS.number) : JS.toFixed 2 x <> EmptyString.
Proof.
  assert (Hl : JS.toFixed_list 2 x <> []).
  { destruct x as [sg | sg | | neg m e]; cbn [JS.toFixed_list JS.toString_list].
    - apply fixed_two_nonempty.
    - by destruct sg.
    - done.
    - destruct (JS.ratio_of m e) as [num den].
      case_match; intros [_ Hnil]%app_eq_nil; revert Hnil;
        [apply toString_positive_nonempty | apply fixed_two_nonempty]. }
  unfold JS.toFixed. destruct (JS.toFixed_list 2 x); [done | discriminate].
Qed.

(** X5.  [ProductInfo] never throws, and its price paragraph is the
    bare "$" exactly when the hook has no data: with a product the
    dollar sign is always followed by the text of the price. *)
Theorem price_slot_bare_iff_no_product (w : World) :
  exists r panel w',
    useProduct w = JS.Normal (r, w')
    /\ ProductInfo w = JS.Normal (panel, w')
    /\ (slotText "price" panel = Some "$" <-> data r = None).
Proof.
  destruct (render_useProduct w) as (r & Hu).
  eexists r, _, _. split; [exact Hu |].
  split; [exact (ProductInfo_render _ _ _ Hu) |].
  destruct (data r) as [p |]; cbn.
  - split; [| discriminate]. intros [= H]. rewrite append_empty_r in H.
    by apply toFixed_nonempty in H.
  - by split.
Qed.

Lemma digit_char_code (d : Z) : 0 <= d <= 9 -> JS.code (JS.digit_char d) = 48 + d.
Proof.
  intros Hd.
  assert (Hcases : d = 0 \/ d = 1 \/ d = 2 \/ d = 3 \/ d = 4 \/ d = 5 \/ d = 6
                   \/ d = 7 \/ d = 8 \/ d = 9) by lia.
  repeat destruct Hcases as [-> | Hcases]; try reflexivity. by subst d.
Qed.

Lemma digit_char_digit (d : Z) : 0 <= d <= 9 -> isDecimalDigit (JS.digit_char d) = true.
Proof.
  intros Hd. unfold isDecimalDigit. rewrite (digit_char_code d Hd).
  apply andb_true_iff. split; apply Z.leb_le; lia.
Qed.

Lemma digitsValue_snoc (l : list ascii) (c : ascii) :
  digitsValue (l ++ [c]) = digitsValue l * 10 + (JS.code c - 48).
Proof. unfold digitsValue. by rewrite fold_left_app. Qed.

(** The decimal representation consists of digits and denotes the
    integer it was made from. *)
Lemma decimal_value (n : Z) :
  0 <= n ->
  forallb isDecimalDigit (JS.decimal n) = true /\ digitsValue (JS.decimal n) = n.
Proof.
  intros Hn. generalize Hn. pattern n. apply Z_lt_induction; [| exact Hn].
  clear n Hn. intros n IH Hn.
  destruct (Z_lt_le_dec n 10) as [Hlt | Hge].
  - rewrite (decimal_small n) by lia. cbn [forallb].
    rewrite (digit_char_digit n) by lia. split; [reflexivity |].
    unfold digitsValue. cbn [fold_left]. rewrite (digit_char_code n) by lia. lia.
  - rewrite (decimal_step n Hge).
    assert (Hq : 0 <= n / 10 < n) by (split; [apply Z.div_pos; lia | apply Z.div_lt; lia]).
    destruct (IH (n / 10) Hq (proj1 Hq)) as [Hall Hval].
    pose proof (Z.mod_pos_bound n 10 ltac:(lia)) as Hm.
    split.
    + rewrite forallb_app, Hall. cbn [forallb].
      by rewrite (digit_char_digit (n mod 10)) by lia.
    + rewrite digitsValue_snoc, Hval, (digit_char_code (n mod 10)) by lia.
      pose proof (Z.div_mod n 10 ltac:(lia)). lia.
Qed.

(** [toFixed(2)] of an integer-valued number: its decimal digits and
    two zeroes. *)
Lemma toFixed_integer (x : JS.number) (n : Z) :
  integerValue x = Some n -> Z.abs n < 10 ^ 21 ->
  JS.toFixed_list 2 x =
    (if n <? 0 then [minusSign] else [])
    ++ JS.decimal (Z.abs n) ++ list_ascii_of_string ".00".
Proof.
  destruct x as [sg | sg | | neg m e]; cbn [integerValue]; try discriminate.
  - intros [= <-] _. reflexivity.
  - unfold JS.toFixed_list. destruct (JS.ratio_of m e) as [num den].
    destruct (Z.pos num mod Z.pos den =? 0) eqn:Hmod; [| discriminate].
    apply Z.eqb_eq in Hmod. intros [= Hn] Hlt.
    pose proof (Z.div_mod (Z.pos num) (Z.pos den) ltac:(lia)) as Hdiv.
    rewrite Hmod, Z.add_0_r in Hdiv.
    set (v := Z.pos num / Z.pos den) in *.
    assert (Hv : 0 < v) by nia.
    assert (Habs : Z.abs n = v) by (destruct neg; lia).
    assert (Hsmall : (10 ^ 21 * Z.pos den <=? Z.pos num) = false)
      by (apply Z.leb_gt; nia).
    rewrite Hsmall. change (10 ^ Z.of_nat 2) with 100.
    assert (Hcents : (2 * Z.pos num * 100 + Z.pos den) / (2 * Z.pos den) = 100 * v).
    { symmetry. apply (Z.div_unique _ _ _ (Z.pos den)); [lia | nia]. }
    rewrite Hcents, fixed_digits_two by lia.
    assert (H1 : 100 * v / 100 = v) by (rewrite Z.mul_comm; apply Z.div_mul; lia).
    assert (H2 : 100 * v / 10 mod 10 = 0).
    { replace (100 * v) with (10 * v * 10) by lia.
      rewrite Z.div_mul by lia. rewrite Z.mul_comm. apply Z.mod_mul. lia. }
    assert (H3 : 100 * v mod 10 = 0).
    { replace (100 * v) with (10 * v * 10) by lia. apply Z.mod_mul. lia. }
    rewrite H1, H2, H3, Habs.
    assert (Hsign : (n <? 0) = neg).
    { destruct neg; [apply Z.ltb_lt | apply Z.ltb_ge]; lia. }
    rewrite Hsign. by destruct neg.
Qed.

(** X6.  For a product whose price is an integer [n] of magnitude
    below [10 ^ 21], the info panel's price paragraph is "$", a minus
    sign if [n] is negative, the decimal digits of the magnitude of [n]
    and ".00". *)
Theorem info_panel_integer_price
    (w : World) (r : QueryResult) (p : Types.Product) (n : Z) :
  hookResult w = JS.Normal r ->
  data r = Some p ->
  integerValue (Types.price p) = Some n ->
  Z.abs n < 10 ^ 21 ->
  exists panel w' ds,
    ProductInfo w = JS.Normal (panel, w')
    /\ forallb isDecimalDigit ds = true
    /\ digitsValue ds = Z.abs n
    /\ slotText "price" panel
       = Some ("$" +:+ string_of_list_ascii
                         ((if n <? 0 then [minusSign] else [])
                          ++ ds ++ list_ascii_of_string ".00")).
Proof.
  intros Hr Hdata Hint Hlt.
  destruct (hookResult_inv w r Hr) as (w' & Hu).
  destruct (decimal_value (Z.abs n) (Z.abs_nonneg n)) as [Hall Hval].
  eexists _, w', (JS.decimal (Z.abs n)).
  split; [exact (ProductInfo_render _ _ _ Hu) |].
  split; [exact Hall |]. split; [exact Hval |].
  rewrite Hdata. cbn. rewrite append_empty_r. unfold JS.toFixed.
  by rewrite (toFixed_integer _ n Hint Hlt).
Qed.

Lemma info_panel_integer_price_witness :
  exists panel w' ds,
    ProductInfo (run [Resolve (hashOf "1") (withPrice (JS.Number "1200") mockProduct)]
                   loadingWorld)
    = JS.Normal (panel, w')
    /\ forallb isDecimalDigit ds = true
    /\ digitsValue ds = Z.abs 1200
    /\ slotText "price" panel
       = Some ("$" +:+ string_of_list_ascii
                         ((if 1200 <? 0 then [minusSign] else [])
                          ++ ds ++ list_ascii_of_string ".00")).
Proof.
  apply (info_panel_integer_price
           (run [Resolve (hashOf "1") (withPrice (JS.Number "1200") mockProduct)]
              loadingWorld)
           {| data := Some (withPrice (JS.Number "1200") mockProduct);
              isLoading := false; error := None |}
           (withPrice (JS.Number "1200") mockProduct) 1200);
    vm_compute; reflexivity.
Defined.

(** * Further properties of the id the hook derives *)

(** Entering a route issues the request of its id, or none when the id
    is falsy. *)
Lemma enter_calls (retries : nat) (s : string) :
  calls (enter retries s)
  = if JS.ToBoolean (JS.Number s)
    then [(hashOf s, productService.getProduct (JS.Number s))]
    else [].
Proof.
  unfold enter. rewrite render_eq. cbn [calls].
  unfold startsFetch, entryOf, observes_enabled.
  cbn [route cache observer calls initialWorld].
  rewrite lookup_empty, enabled_truthy.
  by destruct (JS.ToBoolean (JS.Number s)).
Qed.

Lemma enter_disabled (retries : nat) (s : string) :
  JS.ToBoolean (JS.Number s) = false ->
  hookResult (enter retries s)
  = JS.Normal {| data := None; isLoading := false; error := None |}.
Proof.
  intros Hs.
  assert (Hc : cache (enter retries s) !! hashOf (route (enter retries s))
               = Some initialState).
  { unfold enter. rewrite render_route, render_eq. cbn [cache].
    unfold startsFetch, entryOf. cbn [route cache initialWorld].
    rewrite enabled_truthy, Hs, lookup_empty. apply lookup_insert_eq. }
  by rewrite (hookResult_mounted _ _ (enter_mounted retries s) Hc).
Qed.

Lemma hashOf_Number (s1 s2 : string) :
  JS.Number s1 = JS.Number s2 -> hashOf s1 = hashOf s2.
Proof. unfold hashOf. by intros ->. Qed.

(** X7.  For a segment of decimal digits that denotes an integer below
    [2 ^ 53], the guard [!!id] holds exactly when that integer is not
    zero: entering a route of zeroes issues no request and the hook
    stays idle, entering any other such route issues the request of its
    id. *)
Theorem digit_segment_enabled_iff_nonzero (ds : list ascii) (retries : nat) :
  ds <> [] ->
  forallb isDecimalDigit ds = true ->
  digitsValue ds < 2 ^ 53 ->
  JS.ToBoolean (JS.Number (string_of_list_ascii ds)) = negb (digitsValue ds =? 0)
  /\ calls (enter retries (string_of_list_ascii ds))
     = (if digitsValue ds =? 0 then []
        else [(hashOf (string_of_list_ascii ds),
               productService.getProduct (JS.Number (string_of_list_ascii ds)))])
  /\ (digitsValue ds = 0 ->
      hookResult (enter retries (string_of_list_ascii ds))
      = JS.Normal {| data := None; isLoading := false; error := None |}).
Proof.
  intros Hne Hall Hlt.
  assert (Hb : JS.ToBoolean (JS.Number (string_of_list_ascii ds))
               = negb (digitsValue ds =? 0)).
  { rewrite (Number_digits ds Hne Hall).
    pose proof (digitsValue_nonneg ds Hall) as Hnn.
    destruct (digitsValue ds) as [| m | m] eqn:Hv; [reflexivity | | lia].
    cbn [JS.of_decimal].
    by destruct (round_ratio_integer false m Hlt) as (y & e & -> & _). }
  split; [exact Hb |]. split.
  - rewrite enter_calls, Hb. by destruct (digitsValue ds =? 0).
  - intros H0. apply enter_disabled. by rewrite Hb, H0.
Qed.

Lemma digit_segment_enabled_iff_nonzero_witness :
  JS.ToBoolean (JS.Number "000") = negb (digitsValue (list_ascii_of_string "000") =? 0)
  /\ calls (enter 3 "000")
     = (if digitsValue (list_ascii_of_string "000") =? 0 then []
        else [(hashOf "000", productService.getProduct (JS.Number "000"))])
  /\ (digitsValue (list_ascii_of_string "000") = 0 ->
      hookResult (enter 3 "000")
      = JS.Normal {| data := None; isLoading := false; error := None |}).
Proof.
  apply (digit_segment_enabled_iff_nonzero (list_ascii_of_string "000") 3).
  - discriminate.
  - reflexivity.
  - vm_compute. reflexivity.
Defined.

Lemma digitsValue_zeros (k : nat) (ds : list ascii) :
  digitsValue (repeat zeroDigit k ++ ds) = digitsValue ds.
Proof.
  unfold digitsValue. rewrite fold_left_app. f_equal.
  induction k as [| k IH]; [reflexivity | exact IH].
Qed.

Lemma zeros_digits (k : nat) : forallb isDecimalDigit (repeat zeroDigit k) = true.
Proof. induction k as [| k IH]; [reflexivity | exact IH]. Qed.

(** X8.  Zeroes in front of a digit segment do not change the derived
    id, so the padded segment addresses the same query: same key, same
    cache entry.  No bound on the size of the number is needed. *)
Theorem leading_zeros_same_query (k : nat) (ds : list ascii) :
  ds <> [] ->
  forallb isDecimalDigit ds = true ->
  JS.Number (string_of_list_ascii (repeat zeroDigit k ++ ds))
  = JS.Number (string_of_list_ascii ds)
  /\ queryKey (useProduct_options
                 (JS.Number (string_of_list_ascii (repeat zeroDigit k ++ ds))))
     = queryKey (useProduct_options (JS.Number (string_of_list_ascii ds)))
  /\ hashOf (string_of_list_ascii (repeat zeroDigit k ++ ds))
     = hashOf (string_of_list_ascii ds).
Proof.
  intros Hne Hall.
  assert (Hn : JS.Number (string_of_list_ascii (repeat zeroDigit k ++ ds))
               = JS.Number (string_of_list_ascii ds)).
  { rewrite (Number_digits ds Hne Hall), Number_digits.
    - by rewrite digitsValue_zeros.
    - destruct ds; [done |]. by destruct k.
    - by rewrite forallb_app, zeros_digits, Hall. }
  split; [exact Hn |]. split; [by rewrite Hn | by apply hashOf_Number].
Qed.

Lemma leading_zeros_same_query_witness :
  JS.Number (string_of_list_ascii (repeat zeroDigit 3 ++ list_ascii_of_string "42"))
  = JS.Number (string_of_list_ascii (list_ascii_of_string "42"))
  /\ queryKey (useProduct_options
                 (JS.Number (string_of_list_ascii
                               (repeat zeroDigit 3 ++ list_ascii_of_string "42"))))
     = queryKey (useProduct_options
                   (JS.Number (string_of_list_ascii (list_ascii_of_string "42"))))
  /\ hashOf (string_of_list_ascii (repeat zeroDigit 3 ++ list_ascii_of_string "42"))
     = hashOf (string_of_list_ascii (list_ascii_of_string "42")).
Proof.
  apply (leading_zeros_same_query 3 (list_ascii_of_string "42")).
  - discriminate.
  - reflexivity.
Defined.

(** ** White space around the segment *)

Lemma skipWhiteSpace_prefix (pre l : list ascii) :
  isWhiteSpaceOnly pre = true ->
  JS.skipWhiteSpace (pre ++ l) = JS.skipWhiteSpace l.
Proof.
  unfold isWhiteSpaceOnly. induction pre as [| c pre IH]; [reflexivity |].
  cbn [forallb app JS.skipWhiteSpace]. intros [Hc Hpre]%andb_true_iff.
  rewrite Hc. by apply IH.
Qed.

Lemma skipWhiteSpace_blank (l : list ascii) :
  isWhiteSpaceOnly l = true <-> JS.skipWhiteSpace l = [].
Proof.
  unfold isWhiteSpaceOnly. induction l as [| c l IH]; [done |].
  cbn [forallb JS.skipWhiteSpace].
  destruct (JS.isStrWhiteSpaceChar c); [exact IH |]. by split.
Qed.

Lemma skipWhiteSpace_suffix (l post : list ascii) :
  JS.skipWhiteSpace l <> [] ->
  JS.skipWhiteSpace (l ++ post) = JS.skipWhiteSpace l ++ post.
Proof.
  induction l as [| c l IH]; [done |]. cbn [app JS.skipWhiteSpace].
  destruct (JS.isStrWhiteSpaceChar c); [exact IH | reflexivity].
Qed.

Lemma trimString_surrounded (pre l post : list ascii) :
  isWhiteSpaceOnly pre = true -> isWhiteSpaceOnly post = true ->
  JS.trimString (pre ++ l ++ post) = JS.trimString l.
Proof.
  intros Hpre Hpost. unfold JS.trimString.
  rewrite (skipWhiteSpace_prefix pre _ Hpre).
  destruct (JS.skipWhiteSpace l) as [| c t] eqn:Hl.
  - apply skipWhiteSpace_blank in Hl.
    assert (Hboth : isWhiteSpaceOnly (l ++ post) = true)
      by (unfold isWhiteSpaceOnly in *; by rewrite forallb_app, Hl, Hpost).
    apply skipWhiteSpace_blank in Hboth. by rewrite Hboth.
  - rewrite skipWhiteSpace_suffix by (by rewrite Hl).
    rewrite Hl, rev_app_distr. apply f_equal, skipWhiteSpace_prefix.
    by apply forallb_rev.
Qed.

(** X9.  [Number] ignores white space around the segment (tabs, line
    breaks, spaces, no-break spaces), so the surrounded segment
    addresses the same query as the bare one. *)
Theorem surrounding_white_space_ignored (pre post : list ascii) (s : string) :
  isWhiteSpaceOnly pre = true ->
  isWhiteSpaceOnly post = true ->
  JS.Number (string_of_list_ascii (pre ++ list_ascii_of_string s ++ post))
  = JS.Number s
  /\ hashOf (string_of_list_ascii (pre ++ list_ascii_of_string s ++ post))
     = hashOf s.
Proof.
  intros Hpre Hpost.
  assert (Hn : JS.Number (string_of_list_ascii (pre ++ list_ascii_of_string s ++ post))
               = JS.Number s).
  { unfold JS.Number, JS.StringToNumber.
    by rewrite list_ascii_of_string_of_list_ascii, trimString_surrounded. }
  split; [exact Hn | by apply hashOf_Number].
Qed.

Lemma surrounding_white_space_ignored_witness :
  JS.Number (string_of_list_ascii
               (list_ascii_of_string "  " ++ list_ascii_of_string "7"
                ++ [ascii_of_N 9; ascii_of_N 160]))
  = JS.Number "7"
  /\ hashOf (string_of_list_ascii
               (list_ascii_of_string "  " ++ list_ascii_of_string "7"
                ++ [ascii_of_N 9; ascii_of_N 160]))
     = hashOf "7".
Proof.
  apply (surrounding_white_space_ignored
           (list_ascii_of_string "  ") [ascii_of_N 9; ascii_of_N 160] "7");
    reflexivity.
Defined.

(** X10.  A segment that is empty or consists of white space only
    converts to [+0]: the query is disabled, entering the route issues
    no request and the hook returns the idle result. *)
Theorem blank_segment_is_disabled (ws : list ascii) (retries : nat) :
  isWhiteSpaceOnly ws = true ->
  JS.Number (string_of_list_ascii ws) = S754_zero false
  /\ calls (enter retries (string_of_list_ascii ws)) = []
  /\ hookResult (enter retries (string_of_list_ascii ws))
     = JS.Normal {| data := None; isLoading := false; error := None |}.
Proof.
  intros Hws.
  assert (Hn : JS.Number (string_of_list_ascii ws) = S754_zero false).
  { unfold JS.Number, JS.StringToNumber, JS.trimString.
    rewrite list_ascii_of_string_of_list_ascii.
    apply skipWhiteSpace_blank in Hws. by rewrite Hws. }
  split; [exact Hn |]. split.
  - by rewrite enter_calls, Hn.
  - apply enter_disabled. by rewrite Hn.
Qed.

Lemma blank_segment_is_disabled_witness :
  JS.Number (string_of_list_ascii (list_ascii_of_string " ")) = S754_zero false
  /\ calls (enter 0 (string_of_list_ascii (list_ascii_of_string " "))) = []
  /\ hookResult (enter 0 (string_of_list_ascii (list_ascii_of_string " ")))
     = JS.Normal {| data := None; isLoading := false; error := None |}.
Proof.
  apply (blank_segment_is_disabled (list_ascii_of_string " ") 0). reflexivity.
Defined.

(** ** Signed segments *)

Lemma trimString_clean (l : list ascii) :
  JS.skipWhiteSpace l = l -> JS.skipWhiteSpace (rev l) = rev l ->
  JS.trimString l = l.
Proof.
  intros H1 H2. unfold JS.trimString. rewrite H1, H2. apply rev_involutive.
Qed.

(** A minus sign and a non-empty sequence of decimal digits convert to
    the negated integer. *)
Lemma Number_minus_digits (ds : list ascii) :
  ds <> [] -> forallb isDecimalDigit ds = true ->
  JS.Number (string_of_list_ascii (minusSign :: ds))
  = JS.of_decimal true (digitsValue ds) 0.
Proof.
  intros Hne Hall. unfold JS.Number, JS.StringToNumber.
  rewrite list_ascii_of_string_of_list_ascii.
  rewrite trimString_clean; [| reflexivity |].
  2: { cbn [rev]. pose proof (forallb_rev _ _ Hall) as Hrev.
       destruct (rev ds) as [| c t] eqn:Hr.
       - apply (f_equal (@length ascii)) in Hr. rewrite length_rev in Hr.
         destruct ds; [done | discriminate].
       - cbn [forallb] in Hrev. apply andb_true_iff in Hrev as [Hc _].
         cbn [app JS.skipWhiteSpace]. by rewrite (digit_not_white_space c Hc). }
  assert (Hnd : JS.read_non_decimal (minusSign :: ds) = None)
    by (by destruct ds as [| p r]).
  rewrite Hnd. unfold JS.read_signed_decimal.
  change (JS.is_char minusSign 43) with false.
  change (JS.is_char minusSign 45) with true. cbn match.
  rewrite bool_decide_eq_false_2.
  2: { intros Heq. rewrite Heq in Hall. vm_compute in Hall. discriminate. }
  unfold JS.read_unsigned_decimal. rewrite (read_digits_all ds Hall).
  assert (Hlen : (0 + Z.of_nat (length ds) =? 0) = false)
    by (apply Z.eqb_neq; destruct ds; [done | cbn [length]; lia]).
  rewrite Hlen. reflexivity.
Qed.

(** X11.  The guard [!!id] lets negative ids through: for a minus sign
    followed by decimal digits that denote an integer [n] with
    [0 < n < 2 ^ 53], the derived id is [- n], the query is enabled and
    entering the route asks the service for the product [- n]. *)
Theorem negative_segment_is_requested (ds : list ascii) (retries : nat) :
  ds <> [] ->
  forallb isDecimalDigit ds = true ->
  0 < digitsValue ds < 2 ^ 53 ->
  integerValue (JS.Number (string_of_list_ascii (minusSign :: ds)))
  = Some (- digitsValue ds)
  /\ JS.ToBoolean (JS.Number (string_of_list_ascii (minusSign :: ds))) = true
  /\ calls (enter retries (string_of_list_ascii (minusSign :: ds)))
     = [(hashOf (string_of_list_ascii (minusSign :: ds)),
         productService.getProduct
           (JS.Number (string_of_list_ascii (minusSign :: ds))))].
Proof.
  intros Hne Hall [Hpos Hlt].
  assert (Hnum : exists y e,
             JS.Number (string_of_list_ascii (minusSign :: ds)) = S754_finite true y e
             /\ e <= 0 /\ Z.pos y = digitsValue ds * 2 ^ (- e)).
  { rewrite (Number_minus_digits ds Hne Hall).
    destruct (digitsValue ds) as [| m | m] eqn:Hv; [lia | | lia].
    cbn [JS.of_decimal]. apply (round_ratio_integer true m Hlt). }
  destruct Hnum as (y & e & Hn & He & Hy).
  destruct (integerValue_exact true y e (digitsValue ds) He Hy) as [Hi _].
  split; [by rewrite Hn |]. split; [by rewrite Hn |].
  rewrite enter_calls. by rewrite Hn at 1.
Qed.

Lemma negative_segment_is_requested_witness :
  integerValue (JS.Number (string_of_list_ascii (minusSign :: list_ascii_of_string "5")))
  = Some (- digitsValue (list_ascii_of_string "5"))
  /\ JS.ToBoolean
       (JS.Number (string_of_list_ascii (minusSign :: list_ascii_of_string "5"))) = true
  /\ calls (enter 0 (string_of_list_ascii (minusSign :: list_ascii_of_string "5")))
     = [(hashOf (string_of_list_ascii (minusSign :: list_ascii_of_string "5")),
         productService.getProduct
           (JS.Number (string_of_list_ascii (minusSign :: list_ascii_of_string "5"))))].
Proof.
  apply (negative_segment_is_requested (list_ascii_of_string "5") 0).
  - discriminate.
  - reflexivity.
  - vm_compute. split; reflexivity.
Defined.

(** * Further properties of the query behind the hook *)

(** ** The key and the producer carry the same id *)

Lemma render_keyedCalls (w : World) : keyedCalls w -> keyedCalls (render w).
Proof.
  intros [Hcalls Hcache]. rewrite render_eq. split; cbn [calls cache].
  - destruct (startsFetch w); [| exact Hcalls].
    constructor; [reflexivity | exact Hcalls].
  - intros h q fn [[<- <-] | [_ Hq]]%lookup_insert_Some Hfn; [| by eapply Hcache].
    destruct (startsFetch w).
    + cbn [state_queryFn fetchState] in Hfn. injection Hfn as <-. reflexivity.
    + unfold entryOf in Hfn.
      destruct (cache w !! hashOf (route w)) as [q |] eqn:Hq; [by eapply Hcache |].
      discriminate.
Qed.

Lemma onEvent_keyedCalls (ev : Event) (w : World) :
  mounted w -> keyedCalls w -> keyedCalls (onEvent ev w).
Proof.
  intros [Hobs _] [Hcalls Hcache]. destruct ev as [s | h p | h e | | h]; cbn [onEvent].
  - by split.
  - destruct (cache w !! h) as [q |] eqn:Hq; [| by split].
    destruct (is_idle q); [by split |]. split; [exact Hcalls |].
    cbn [cache withCache].
    intros h' q' fn [[<- <-] | [_ Hq']]%lookup_insert_Some Hfn; [| by eapply Hcache].
    exact (Hcache _ _ _ Hq Hfn).
  - destruct (cache w !! h) as [q |] eqn:Hq; [| by split].
    destruct (is_idle q); [by split |].
    destruct (fetchFailureCount q <? retry w)%nat.
    + split; cbn [calls cache].
      * destruct (state_queryFn q) as [fn |] eqn:Hfn; [| exact Hcalls].
        constructor; [exact (Hcache _ _ _ Hq Hfn) | exact Hcalls].
      * intros h' q' fn [[<- <-] | [_ Hq']]%lookup_insert_Some Hfn;
          [exact (Hcache _ _ _ Hq Hfn) | by eapply Hcache].
    + split; [exact Hcalls |]. cbn [cache withCache].
      intros h' q' fn [[<- <-] | [_ Hq']]%lookup_insert_Some Hfn;
        [exact (Hcache _ _ _ Hq Hfn) | by eapply Hcache].
  - rewrite Hobs. fold (hashOf (route w)).
    destruct (cache w !! hashOf (route w)) as [q |] eqn:Hq; [| by split].
    destruct (enabled _ && is_idle q); [| by split].
    split; cbn [calls cache].
    + constructor; [reflexivity | exact Hcalls].
    + intros h' q' fn [[<- <-] | [_ Hq']]%lookup_insert_Some Hfn; [| by eapply Hcache].
      cbn [state_queryFn fetchState] in Hfn. injection Hfn as <-. reflexivity.
  - assert (Hdel : keyedCalls (withCache w (delete h (cache w)))).
    { split; [exact Hcalls |]. cbn [cache withCache].
      intros h' q' fn [_ Hq']%lookup_delete_Some. by eapply Hcache. }
    repeat case_match; first [by split | exact Hdel].
Qed.

Lemma run_keyedCalls (evs : list Event) :
  forall w : World, mounted w -> keyedCalls w -> keyedCalls (run evs w).
Proof.
  induction evs as [| ev evs IH]; intros w Hm Ht; [exact Ht |].
  cbn [run fold_left]. apply IH; [apply step_mounted |].
  by apply render_keyedCalls, onEvent_keyedCalls.
Qed.

(** X12.  The key and the producer of the hook carry the same id:
    whatever route is entered and whatever happens afterwards
    (navigation, results, retries, refetches, collection), every request
    issued is recorded under the hash of the key ["product", id] of the
    very id it asks the service for, and every producer kept in the
    cache for retries asks for the id of its entry's key. *)
Theorem requests_are_keyed_by_their_id
    (retries : nat) (s0 : string) (evs : list Event) :
  Forall (fun c => c.1 = hashKey [KString "product"; KNumber (requestId c)])
    (calls (run evs (enter retries s0)))
  /\ forall h q fn,
       cache (run evs (enter retries s0)) !! h = Some q ->
       state_queryFn q = Some fn ->
       h = hashKey [KString "product"; KNumber (requestId (h, fn tt))].
Proof.
  assert (Hk : keyedCalls (run evs (enter retries s0))).
  { apply run_keyedCalls; [apply enter_mounted |].
    apply render_keyedCalls. split; [constructor |].
    intros h q fn Hq. cbn in Hq. by rewrite lookup_empty in Hq. }
  destruct Hk as [Hcalls Hcache]. split; [exact Hcalls |].
  intros h q fn Hq Hfn. exact (Hcache _ _ _ Hq Hfn).
Qed.

(** ** Results are delivered to their own query *)



(** The world right after a route with a truthy id is entered. *)
Lemma enter_eq (retries : nat) (s : string) :
  JS.ToBoolean (JS.Number s) = true ->
  enter retries s
  = {| route := s;
       cache := {[ hashOf s :=
                     fetchState (queryFn (useProduct_options (JS.Number s)))
                       initialState ]};
       observer := Some (useProduct_options (JS.Number s));
       calls := [(hashOf s, productService.getProduct (JS.Number s))];
       retry := retries |}.
Proof.
  intros Hs. unfold enter. rewrite render_eq.
  unfold startsFetch, entryOf, observes_enabled.
  cbn [route cache observer calls retry initialWorld].
  rewrite lookup_empty, enabled_truthy, Hs. reflexivity.
Qed.



(** ** Background refetches *)

(** X14.  Once the product of a route is resolved, a background
    refetch of the coordinator invokes the producer again but keeps the
    product on screen: the hook returns the data, not loading.  If the
    refetch resolves, the new product replaces the old one; if it is
    rejected (retries used up), the hook returns the error together
    with the old product, and the page shows the error message and the
    detail view at once. *)
Theorem background_refetch_keeps_content
    (retries : nat) (s : string) (p : Types.Product) :
  JS.ToBoolean (JS.Number s) = true ->
  hookResult (run [Resolve (hashOf s) p; Refetch] (enter retries s))
  = JS.Normal {| data := Some p; isLoading := false; error := None |}
  /\ calls (run [Resolve (hashOf s) p; Refetch] (enter retries s))
     = [(hashOf s, productService.getProduct (JS.Number s));
        (hashOf s, productService.getProduct (JS.Number s))]
  /\ (forall p' : Types.Product,
         hookResult (run [Resolve (hashOf s) p; Refetch; Resolve (hashOf s) p']
                       (enter retries s))
         = JS.Normal {| data := Some p'; isLoading := false; error := None |})
  /\ (forall (errs : list Error) (e : Error),
         length errs = retries ->
         hookResult (run (map (Reject (hashOf s)) (errs ++ [e]))
                       (run [Resolve (hashOf s) p; Refetch] (enter retries s)))
         = JS.Normal {| data := Some p; isLoading := false; error := Some e |}
         /\ exists page,
              view (run (map (Reject (hashOf s)) (errs ++ [e]))
                      (run [Resolve (hashOf s) p; Refetch] (enter retries s)))
              = JS.Normal page
              /\ showsLoading page = false
              /\ showsError page = true
              /\ showsContent page = true).
Proof.
  intros Hs.
  set (fn := queryFn (useProduct_options (JS.Number s))).
  set (q0 := fetchState fn initialState).
  set (c := (hashOf s, productService.getProduct (JS.Number s))).
  set (w2 := run [Resolve (hashOf s) p; Refetch] (enter retries s)).
  assert (H2 : w2
               = {| route := s;
                    cache := <[hashOf s := fetchState fn (resolved p q0)]>
                               (<[hashOf s := resolved p q0]> {[ hashOf s := q0 ]});
                    observer := Some (useProduct_options (JS.Number s));
                    calls := [c; c];
                    retry := retries |}).
  { unfold w2. cbn [run fold_left].
    rewrite (step_quiet Refetch) by (reflexivity || apply step_mounted).
    rewrite (step_quiet (Resolve _ _)) by (reflexivity || apply enter_mounted).
    rewrite (enter_eq retries s Hs). cbn [onEvent cache].
    rewrite lookup_singleton_eq. cbn [is_idle fetchStatus fetchState].
    cbn [withCache observer cache route calls retry].
    fold (hashOf s). rewrite lookup_insert_eq, enabled_truthy, Hs. reflexivity. }
  assert (Hm : mounted w2) by apply step_mounted.
  assert (Hq : cache w2 !! hashOf (route w2) = Some (fetchState fn (resolved p q0))).
  { rewrite H2. cbn [route cache]. apply lookup_insert_eq. }
  assert (Hroute : route w2 = s) by (by rewrite H2).
  split; [by rewrite (hookResult_mounted _ _ Hm Hq) |].
  split; [by rewrite H2 |]. split.
  - intros p'.
    change [Resolve (hashOf s) p; Refetch; Resolve (hashOf s) p']
      with ([Resolve (hashOf s) p; Refetch] ++ [Resolve (hashOf s) p']).
    rewrite run_app. fold w2. clearbody w2. cbn [run fold_left].
    rewrite step_quiet by (reflexivity || exact Hm).
    assert (Hm' : mounted (onEvent (Resolve (hashOf s) p') w2))
      by (by apply onEvent_mounted).
    rewrite Hroute in Hq.
    assert (Hev : onEvent (Resolve (hashOf s) p') w2
                  = withCache w2
                      (<[hashOf s := resolved p' (fetchState fn (resolved p q0))]>
                         (cache w2))).
    { cbn [onEvent]. by rewrite Hq. }
    rewrite Hev in *.
    erewrite (hookResult_mounted _ _ Hm');
      [| cbn [withCache cache route]; rewrite Hroute; apply lookup_insert_eq].
    reflexivity.
  - intros errs e Hlen.
    assert (Hret : (fetchFailureCount (fetchState fn (resolved p q0)) + length errs)%nat
                   = retry w2) by (rewrite H2; cbn; exact Hlen).
    destruct (last_rejection_surfaces w2 _ errs e Hm Hq eq_refl Hret) as [Hr _].
    rewrite Hroute in Hr. split; [exact Hr |].
    destruct (view_shows (run (map (Reject (hashOf s)) (errs ++ [e])) w2))
      as (page & r & w' & Hu & Hv & Hl & He & Hc & _).
    unfold hookResult in Hr. rewrite Hu in Hr. injection Hr as ->.
    exists page. by repeat split.
Qed.

Lemma background_refetch_keeps_content_witness :
  hookResult (run [Resolve (hashOf "1") mockProduct; Refetch] (enter 1 "1"))
  = JS.Normal {| data := Some mockProduct; isLoading := false; error := None |}
  /\ calls (run [Resolve (hashOf "1") mockProduct; Refetch] (enter 1 "1"))
     = [(hashOf "1", productService.getProduct (JS.Number "1"));
        (hashOf "1", productService.getProduct (JS.Number "1"))]
  /\ (forall p' : Types.Product,
         hookResult (run [Resolve (hashOf "1") mockProduct; Refetch;
                          Resolve (hashOf "1") p']
                       (enter 1 "1"))
         = JS.Normal {| data := Some p'; isLoading := false; error := None |})
  /\ (forall (errs : list Error) (e : Error),
         length errs = 1%nat ->
         hookResult (run (map (Reject (hashOf "1")) (errs ++ [e]))
                       (run [Resolve (hashOf "1") mockProduct; Refetch] (enter 1 "1")))
         = JS.Normal {| data := Some mockProduct; isLoading := false; error := Some e |}
         /\ exists page,
              view (run (map (Reject (hashOf "1")) (errs ++ [e]))
                      (run [Resolve (hashOf "1") mockProduct; Refetch] (enter 1 "1")))
              = JS.Normal page
              /\ showsLoading page = false
              /\ showsError page = true
              /\ showsContent page = true).
Proof.
  apply (background_refetch_keeps_content 1 "1" mockProduct).
  vm_compute. reflexivity.
Defined.

(** ** Retries *)

Lemma repeat_app_cons {A} (a : A) (n : nat) (l : list A) :
  repeat a n ++ a :: l = a :: repeat a n ++ l.
Proof. induction n as [| n IH]; [reflexivity |]. cbn. by rewrite IH. Qed.

Lemma run_cons (ev : Event) (evs : list Event) (w : World) :
  run (ev :: evs) w = run evs (step w ev).
Proof. reflexivity. Qed.

(** Rejections within the retry limit: each one invokes the stored
    producer again and leaves the result of the hook as it was. *)
Lemma run_rejects_calls (errs : list Error) :
  forall (w : World) (q : QueryState) (fn : unit -> productService.Request),
    mounted w ->
    cache w !! hashOf (route w) = Some q ->
    fetchStatus q = fetching ->
    state_queryFn q = Some fn ->
    (fetchFailureCount q + length errs <= retry w)%nat ->
    hookResult (run (map (Reject (hashOf (route w))) errs) w) = JS.Normal (resultOf q)
    /\ calls (run (map (Reject (hashOf (route w))) errs) w)
       = repeat (hashOf (route w), fn tt) (length errs) ++ calls w.
Proof.
  induction errs as [| e errs IH]; intros w q fn Hm Hq Hf Hfn Hle.
  - split; [exact (hookResult_mounted _ _ Hm Hq) | reflexivity].
  - cbn [map length] in *. rewrite !run_cons.
    rewrite step_quiet by (reflexivity || exact Hm).
    assert (Hm' : mounted (onEvent (Reject (hashOf (route w)) e) w))
      by (by apply onEvent_mounted).
    assert (Hev : onEvent (Reject (hashOf (route w)) e) w
                  = {| route := route w;
                       cache := <[hashOf (route w) := failedAttempt q]> (cache w);
                       observer := observer w;
                       calls := (hashOf (route w), fn tt) :: calls w;
                       retry := retry w |}).
    { cbn [onEvent]. rewrite Hq. unfold is_idle. rewrite Hf, Hfn.
      by rewrite (proj2 (Nat.ltb_lt _ _)) by lia. }
    rewrite Hev in *.
    destruct (IH _ (failedAttempt q) fn Hm') as [Hr Hc];
      [apply lookup_insert_eq | reflexivity | exact Hfn | cbn; lia |].
    cbn [route calls] in Hr, Hc. rewrite Hr, Hc. split.
    + unfold resultOf. cbn [failedAttempt state_data state_error status fetchStatus].
      by rewrite Hf.
    + by rewrite repeat_app_cons.
Qed.

(** X15.  With [retries] retries configured, every rejection before
    the limit invokes the producer again with the same id, under the
    same key, and the hook keeps loading without data or error: after
    [k <= retries] rejections the service has been asked [k + 1]
    times. *)
Theorem rejections_within_limit_are_retried
    (retries : nat) (s : string) (errs : list Error) :
  JS.ToBoolean (JS.Number s) = true ->
  (length errs <= retries)%nat ->
  hookResult (run (map (Reject (hashOf s)) errs) (enter retries s))
  = JS.Normal {| data := None; isLoading := true; error := None |}
  /\ calls (run (map (Reject (hashOf s)) errs) (enter retries s))
     = repeat (hashOf s, productService.getProduct (JS.Number s)) (S (length errs)).
Proof.
  intros Hs Hle.
  destruct (enter_fetching retries s Hs) as (Hroute & Hretry & Hq).
  assert (Hq' : cache (enter retries s) !! hashOf (route (enter retries s))
                = Some (fetchState (queryFn (useProduct_options (JS.Number s)))
                          initialState)) by (by rewrite Hroute).
  destruct (run_rejects_calls errs (enter retries s) _
              (queryFn (useProduct_options (JS.Number s)))
              (enter_mounted retries s) Hq' eq_refl eq_refl) as [Hr Hc].
  { rewrite Hretry. cbn. exact Hle. }
  rewrite Hroute in Hr, Hc. split; [exact Hr |].
  rewrite Hc, enter_calls, Hs. cbn [repeat]. by rewrite repeat_app_cons, app_nil_r.
Qed.

Lemma rejections_within_limit_are_retried_witness :
  hookResult (run (map (Reject (hashOf "1")) [failedToFetch; failedToFetch]) (enter 3 "1"))
  = JS.Normal {| data := None; isLoading := true; error := None |}
  /\ calls (run (map (Reject (hashOf "1")) [failedToFetch; failedToFetch]) (enter 3 "1"))
     = repeat (hashOf "1", productService.getProduct (JS.Number "1"))
         (S (length [failedToFetch; failedToFetch])).
Proof.
  apply (rejections_within_limit_are_retried 3 "1" [failedToFetch; failedToFetch]).
  - vm_compute. reflexivity.
  - vm_compute. lia.
Defined.

(** ** The loading indicator stands alone *)

Lemma fetchState_pendingClean (fn : unit -> productService.Request) (q : QueryState) :
  pendingClean q -> pendingClean (fetchState fn q).
Proof.
  unfold pendingClean, fetchState, has_data. cbn [status state_data state_error].
  destruct (state_data q); [exact id | auto].
Qed.

Lemma render_pendingClean (w : World) :
  (forall h q, cache w !! h = Some q -> pendingClean q) ->
  forall h q, cache (render w) !! h = Some q -> pendingClean q.
Proof.
  intros Hc h q. rewrite render_eq. cbn [cache].
  intros [[<- <-] | [_ Hq]]%lookup_insert_Some; [| by eapply Hc].
  assert (He : pendingClean (entryOf w)).
  { unfold entryOf. destruct (cache w !! hashOf (route w)) as [q |] eqn:Hq;
      [by eapply Hc | done]. }
  destruct (startsFetch w); [by apply fetchState_pendingClean | exact He].
Qed.

Lemma onEvent_pendingClean (ev : Event) (w : World) :
  (forall h q, cache w !! h = Some q -> pendingClean q) ->
  forall h q, cache (onEvent ev w) !! h = Some q -> pendingClean q.
Proof.
  intros Hc. destruct ev as [s | h p | h e | | h]; cbn [onEvent].
  - exact Hc.
  - destruct (cache w !! h) as [q |] eqn:Hq; [| exact Hc].
    destruct (is_idle q); [exact Hc |]. cbn [cache withCache].
    intros h' q' [[<- <-] | [_ Hq']]%lookup_insert_Some; [done | by eapply Hc].
  - destruct (cache w !! h) as [q |] eqn:Hq; [| exact Hc].
    destruct (is_idle q); [exact Hc |].
    destruct (fetchFailureCount q <? retry w)%nat; cbn [cache withCache].
    + intros h' q' [[<- <-] | [_ Hq']]%lookup_insert_Some; [| by eapply Hc].
      exact (Hc _ _ Hq).
    + intros h' q' [[<- <-] | [_ Hq']]%lookup_insert_Some; [done | by eapply Hc].
  - destruct (observer w) as [o |]; [| exact Hc].
    destruct (cache w !! hashKey (queryKey o)) as [q |] eqn:Hq; [| exact Hc].
    destruct (enabled o && is_idle q); [| exact Hc]. cbn [cache].
    intros h' q' [[<- <-] | [_ Hq']]%lookup_insert_Some; [| by eapply Hc].
    apply fetchState_pendingClean. exact (Hc _ _ Hq).
  - assert (Hdel : forall h' q',
               cache (withCache w (delete h (cache w))) !! h' = Some q' ->
               pendingClean q').
    { cbn [cache withCache]. intros h' q' [_ Hq']%lookup_delete_Some. by eapply Hc. }
    repeat case_match; first [exact Hc | exact Hdel].
Qed.

Lemma run_pendingClean (evs : list Event) :
  forall w : World,
    (forall h q, cache w !! h = Some q -> pendingClean q) ->
    forall h q, cache (run evs w) !! h = Some q -> pendingClean q.
Proof.
  induction evs as [| ev evs IH]; intros w Hc; [exact Hc |].
  cbn [run fold_left]. apply IH. by apply render_pendingClean, onEvent_pendingClean.
Qed.

(** X16.  Whatever route is entered and whatever happens afterwards,
    refetches included, the page never shows the loading indicator
    together with the error message or the detail view: while the hook
    reports [isLoading] it has neither data nor error. *)
Theorem loading_indicator_stands_alone
    (retries : nat) (s0 : string) (evs : list Event) :
  exists page r,
    view (run evs (enter retries s0)) = JS.Normal page
    /\ hookResult (run evs (enter retries s0)) = JS.Normal r
    /\ (isLoading r = true -> data r = None /\ error r = None)
    /\ (showsLoading page = true ->
        showsError page = false /\ showsContent page = false).
Proof.
  set (w := run evs (enter retries s0)).
  assert (Hm : mounted w) by (apply run_mounted, enter_mounted).
  assert (Hc : forall h q, cache w !! h = Some q -> pendingClean q).
  { apply run_pendingClean, render_pendingClean.
    intros h q Hq. cbn in Hq. by rewrite lookup_empty in Hq. }
  destruct (useProduct_mounted w Hm) as (q & Hq & Hu).
  destruct (view_shows w) as (page & r & w' & Hu' & Hv & Hl & He & Hd & _).
  rewrite Hu in Hu'. injection Hu' as <- <-.
  assert (Hr : isLoading (resultOf q) = true ->
               data (resultOf q) = None /\ error (resultOf q) = None).
  { cbn [isLoading data error resultOf]. intros Hload.
    apply (Hc _ _ Hq). by destruct (status q). }
  exists page, (resultOf q). split; [exact Hv |].
  split; [unfold hookResult; by rewrite Hu |]. split; [exact Hr |].
  rewrite Hl, He, Hd. intros Hload. destruct (Hr Hload) as [-> ->]. by split.
Qed.
